(** * SFMP: a shallow embedding of the client and the server

    The two programs ([server/server.py], [client/client.py]) are
    sequential handlers that talk to a socket, to the file system and (the
    server) to the process-wide [clients] dictionary.  They are embedded as
    programs of a small free monad, [prog]: a tree of calls to the outside
    world, each with a continuation on the reply.  A [host] holds what the
    calls act on; [run] executes a program on a host and logs every call in
    the host's [trace].

    Conventions of the model:
    - text is ASCII, so a Python [str], its UTF-8 encoding and a Rocq
      [string] coincide, and sizes count characters ([Str.is_ascii] is
      the condition, in the statements that name it);
    - the socket keeps message boundaries: one [send] is met by one [recv]
      (cut to the buffer size, the rest staying queued);
    - console output ([dprint], [print], [num_clients]) is not modelled;
    - [os.path.abspath], [dirname] and [basename] are parameters, of which
      the proofs use that [abspath] and [dirname] of an absolute path never
      give the empty string;
    - the empty path names nothing: [exists] is false of it, [open] and
      [makedirs] fail on it;
    - the programs run without privilege: a regular file has a read and a
      write permission, and a directory keeps the mode it was made with,
      whose write and search bits of the owner are needed to create an
      entry in it (reaching what is already there is not subject to the
      mode). *)

From Stdlib Require Import ZArith Ascii String List Lia.
From stdpp Require Import base option list gmap strings.

Local Open Scope string_scope.
Local Open Scope list_scope.

(** ** Strings as Python uses them *)

Module Str.

(** [s.split(sep)] with an explicit one-character separator: empty pieces
    are kept, and the empty string gives one empty piece. *)
Fixpoint split_on (sep : ascii) (s : string) : list string :=
  match s with
  | EmptyString => [EmptyString]
  | String c s' =>
      if Ascii.eqb c sep then EmptyString :: split_on sep s'
      else match split_on sep s' with
           | w :: ws => String c w :: ws
           | [] => [String c EmptyString]
           end
  end.

(** [sep.join(l)] *)
Fixpoint join (sep : string) (l : list string) : string :=
  match l with
  | [] => ""
  | [x] => x
  | x :: rest => x +:+ sep +:+ join sep rest
  end.

Definition upper_ascii (c : ascii) : ascii :=
  let n := nat_of_ascii c in
  if (97 <=? n)%nat && (n <=? 122)%nat then ascii_of_nat (n - 32) else c.

Definition lower_ascii (c : ascii) : ascii :=
  let n := nat_of_ascii c in
  if (65 <=? n)%nat && (n <=? 90)%nat then ascii_of_nat (n + 32) else c.

Fixpoint map_chars (f : ascii → ascii) (s : string) : string :=
  match s with
  | EmptyString => EmptyString
  | String c s' => String (f c) (map_chars f s')
  end.

(** [s.upper()] and [s.lower()] *)
Definition upper : string → string := map_chars upper_ascii.
Definition lower : string → string := map_chars lower_ascii.

(** [s[:n]] and [s[n:]] *)
Fixpoint take (n : N) (s : string) : string :=
  match s with
  | EmptyString => EmptyString
  | String c s' => if (n =? 0)%N then EmptyString else String c (take (N.pred n) s')
  end.

Fixpoint drop (n : N) (s : string) : string :=
  match s with
  | EmptyString => EmptyString
  | String _ s' => if (n =? 0)%N then s else drop (N.pred n) s'
  end.

(** What reading in text mode makes of the line ends: [\r\n] and a lone
    [\r] both become [\n]. *)
Fixpoint universal_newlines (s : string) : string :=
  match s with
  | EmptyString => EmptyString
  | String c s' =>
      if Ascii.eqb c (ascii_of_nat 13)
      then String (ascii_of_nat 10)
             match s' with
             | String c' s'' =>
                 if Ascii.eqb c' (ascii_of_nat 10) then universal_newlines s''
                 else universal_newlines s'
             | EmptyString => EmptyString
             end
      else String c (universal_newlines s')
  end.

(** [len(s)] *)
Definition len (s : string) : N := N.of_nat (String.length s).


Definition is_empty (s : string) : bool :=
  match s with EmptyString => true | _ => false end.

(** [c in s] *)
Fixpoint has_char (c : ascii) (s : string) : bool :=
  match s with
  | EmptyString => false
  | String c' s' => Ascii.eqb c' c || has_char c s'
  end.

(** the character ['\00'] *)
Definition NUL : string := String (ascii_of_nat 0) EmptyString.

(** a string of [n] copies of [c] *)
Definition replicate (n : N) (c : ascii) : string :=
  N.iter n (String c) EmptyString.

End Str.

(** ** Exceptions *)

(** The exception classes the two programs raise or meet.
    [ConnectionError] is a subclass of [OSError]; [OSError] below stands for
    every other [OSError] (file not found, permission denied, is a
    directory, time-out of the transport). *)
Inductive exn : Type :=
| InvalidCommandException
| EmptyFileException
| ConnectionError
| OSError
| IndexError
| KeyError.

Global Instance exn_eq_dec : EqDecision exn.
Proof. solve_decision. Defined.

(** [isinstance(e, OSError)] *)
Definition is_OSError (e : exn) : bool :=
  match e with
  | ConnectionError | OSError => true
  | _ => false
  end.

(** [isinstance(e, ConnectionError)] *)
Definition is_ConnectionError (e : exn) : bool :=
  match e with
  | ConnectionError => true
  | _ => false
  end.

Inductive result (A : Type) : Type :=
| Ok (a : A)
| Err (e : exn).
Arguments Ok {A} a.
Arguments Err {A} e.

(** ** The outside world *)

(** A remote address, [(host, port)]. *)
Abbreviation address := (string * nat)%type.

Inductive open_mode : Type := ModeR | ModeW | ModeWPlus.

Global Instance open_mode_eq_dec : EqDecision open_mode.
Proof. solve_decision. Defined.

(** An entry of the file system: a regular file with its read and write
    permission and its text, or a directory with the mode it was made
    with. *)
Inductive node : Type :=
| File (readable writable : bool) (content : string)
| Dir (mode : Z).

(** The calls the programs make. *)
Inductive action : Type :=
| Send (m : string)                    (* conn.send(m.encode('utf-8')) *)
| Recv (bufsize : N)                   (* conn.recv(bufsize).decode('utf-8') *)
| PathExists (p : string)              (* exists(p) *)
| Makedirs (d : string) (mode : Z)     (* makedirs(d, mode) *)
| Open (p : string) (m : open_mode)    (* open(p, m) *)
| Read (p : string) (n : N)            (* f.read(n), f opened on p *)
| Write (p : string) (data : string)   (* f.write(data), f opened on p *)
| Listdir (d : string)                 (* listdir(d) *)
| Close                                (* conn.close() *)
| DelClient (a : address)              (* del clients[a] *)
| Input.                               (* input(...) *)

Definition reply (a : action) : Type :=
  match a with
  | Send _ => result unit
  | Recv _ => result string
  | PathExists _ => bool
  | Makedirs _ _ => result unit
  | Open _ _ => result unit
  | Read _ _ => string
  | Write _ _ => unit
  | Listdir _ => list string
  | Close => unit
  | DelClient _ => result unit
  | Input => string
  end.

(** What the log keeps of a call. *)
Inductive event : Type :=
| EvSent (m : string)
| EvSendFailed (m : string) (e : exn)
| EvReceived (m : string)
| EvRecvFailed (e : exn)
| EvExists (p : string) (found : bool)
| EvMakedirs (d : string) (ok : bool)
| EvOpen (p : string) (m : open_mode) (ok : bool)
| EvRead (p : string)
| EvWrite (p : string) (data : string)
| EvListdir (d : string)
| EvClose
| EvDel (a : address) (ok : bool)
| EvInput (line : string).

Global Instance event_eq_dec : EqDecision event.
Proof. solve_decision. Defined.

(** ** Programs *)

Inductive prog (R : Type) : Type :=
| Ret (r : R)
| Raise (e : exn)
| Vis (a : action) (k : reply a → prog R).
Arguments Ret {R} r.
Arguments Raise {R} e.
Arguments Vis {R} a k.

Fixpoint bind {A B : Type} (p : prog A) (f : A → prog B) : prog B :=
  match p with
  | Ret r => f r
  | Raise e => Raise e
  | Vis a k => Vis a (λ r, bind (k r) f)
  end.

(** [try: p  except ...: h e]; [h] re-raises what no clause matches. *)
Fixpoint catch {A : Type} (p : prog A) (h : exn → prog A) : prog A :=
  match p with
  | Ret r => Ret r
  | Raise e => h e
  | Vis a k => Vis a (λ r, catch (k r) h)
  end.

Declare Scope prog_scope.
Delimit Scope prog_scope with prog.
Notation "x <- p ;; q" := (bind p (λ x, q))
  (at level 100, p at next level, right associativity) : prog_scope.
Notation "p ;; q" := (bind p (λ _, q))
  (at level 100, right associativity) : prog_scope.
Local Open Scope prog_scope.

(** A call whose failure is raised as a Python exception. *)
Definition call_result {A : Type} (r : result A) : prog A :=
  match r with
  | Ok a => Ret a
  | Err e => Raise e
  end.

(** ** Hosts *)

(** One side of a connection: its file system, its end of the socket, and
    (server) the [clients] dictionary, of which only the keys matter.
    [inbox] holds what the next calls of [recv] will meet, in order: a
    message, or the exception the call raises; the end of the stream is the
    empty message.  [faults] holds the fate of the next calls of [send]:
    [None] for a delivery, [Some e] for the exception raised; once it is
    used up every send is delivered.  [outbox] holds the messages sent and
    not yet handed to the peer. *)
Record host : Type := Host {
  fs : gmap string node;
  inbox : list (result string);
  faults : list (option exn);
  outbox : list string;
  conn_closed : bool;
  clients : gset address;
  stdin : list string;
  trace : list event
}.

Definition set_fs (m : gmap string node) (w : host) : host :=
  Host m (inbox w) (faults w) (outbox w) (conn_closed w) (clients w) (stdin w) (trace w).
Definition set_inbox (i : list (result string)) (w : host) : host :=
  Host (fs w) i (faults w) (outbox w) (conn_closed w) (clients w) (stdin w) (trace w).
Definition set_faults (f : list (option exn)) (w : host) : host :=
  Host (fs w) (inbox w) f (outbox w) (conn_closed w) (clients w) (stdin w) (trace w).
Definition set_outbox (o : list string) (w : host) : host :=
  Host (fs w) (inbox w) (faults w) o (conn_closed w) (clients w) (stdin w) (trace w).
Definition set_closed (b : bool) (w : host) : host :=
  Host (fs w) (inbox w) (faults w) (outbox w) b (clients w) (stdin w) (trace w).
Definition set_clients (c : gset address) (w : host) : host :=
  Host (fs w) (inbox w) (faults w) (outbox w) (conn_closed w) c (stdin w) (trace w).
Definition set_stdin (l : list string) (w : host) : host :=
  Host (fs w) (inbox w) (faults w) (outbox w) (conn_closed w) (clients w) l (trace w).
Definition log (e : event) (w : host) : host :=
  Host (fs w) (inbox w) (faults w) (outbox w) (conn_closed w) (clients w) (stdin w)
       (trace w ++ [e]).

(** The host after a [send] of [m] that went through (sending the empty
    string puts nothing on the wire), and after one that raised [e]. *)
Definition sent (m : string) (w : host) : host :=
  log (EvSent m)
      (set_outbox (if Str.is_empty m then outbox w else outbox w ++ [m])
                  (set_faults (tail (faults w)) w)).

Definition send_failed (m : string) (e : exn) (w : host) : host :=
  log (EvSendFailed m e) (set_faults (tail (faults w)) w).

(** The host after a [recv(n)] that met the message [m] (what does not fit
    the buffer stays at the head of the queue), and after one that raised
    [e]. *)
Definition received (n : N) (m : string) (w : host) : host :=
  log (EvReceived (Str.take n m))
      (set_inbox (if Str.is_empty (Str.drop n m) then tail (inbox w)
                  else Ok (Str.drop n m) :: tail (inbox w)) w).

Definition recv_failed (e : exn) (w : host) : host :=
  log (EvRecvFailed e) (set_inbox (tail (inbox w)) w).

(** How a run of a program ends: with a value, with an exception nobody
    caught, or waiting in a [recv] or an [input] for which nothing has
    arrived ([Blocked], with the program that remains). *)
Inductive status (R : Type) : Type :=
| Done (r : R)
| Uncaught (e : exn)
| Blocked (p : prog R).
Arguments Done {R} r.
Arguments Uncaught {R} e.
Arguments Blocked {R} p.

Section Model.

(** [os.path.abspath], [os.path.dirname], [os.path.basename] *)
Variables abspath dirname basename : string → string.

(** *** The file system *)

(** The file system maps resolved paths to entries; every call resolves
    the path it is given.  The empty path is the exception: it is resolved
    to nothing ([os.path.exists('')] is false). *)
Definition fs_exists (m : gmap string node) (p : string) : bool :=
  if Str.is_empty p then false else
  match m !! abspath p with
  | Some _ => true
  | None => false
  end.

(** What creating an entry in a directory asks of its mode: the write and
    the search bit of the owner, [0o200] and [0o100]. *)
Definition dir_writable (mode : Z) : bool :=
  Z.testbit mode 7 && Z.testbit mode 6.

(** [open(p, mode)]: reading needs a readable regular file; writing
    empties a writable regular file, or creates the file in an existing
    directory whose mode allows it. *)
Definition fs_open (m : gmap string node) (p : string) (mode : open_mode)
  : result (gmap string node) :=
  if Str.is_empty p then Err OSError else
  match mode with
  | ModeR =>
      match m !! abspath p with
      | Some (File true _ _) => Ok m
      | _ => Err OSError
      end
  | ModeW | ModeWPlus =>
      match m !! abspath p with
      | Some (File r true _) => Ok (<[abspath p := File r true ""]> m)
      | Some _ => Err OSError
      | None =>
          match m !! dirname (abspath p) with
          | Some (Dir dm) =>
              if dir_writable dm then Ok (<[abspath p := File true true ""]> m)
              else Err OSError
          | _ => Err OSError
          end
      end
  end.

(** [f.read(n)] on a file just opened in text mode *)
Definition fs_read (m : gmap string node) (p : string) (n : N) : string :=
  match m !! abspath p with
  | Some (File _ _ c) => Str.take n (Str.universal_newlines c)
  | _ => ""
  end.

(** [f.write(data)]: the text goes after what the handle wrote before (a
    newline is written as it is, as where [os.linesep] is the newline) *)
Definition fs_write (m : gmap string node) (p data : string) : gmap string node :=
  match m !! abspath p with
  | Some (File r w c) => <[abspath p := File r w (c +:+ data)]> m
  | _ => m
  end.

(** [makedirs(d, mode)]: the leaf gets [mode], missing ancestors the
    default 0o777; an existing leaf is an error, and so is a parent in
    which nothing may be created. *)
Fixpoint mkdirs (fuel : nat) (m : gmap string node) (d : string) (mode : Z)
  : result (gmap string node) :=
  match m !! d with
  | Some _ => Err OSError
  | None =>
      match m !! dirname d with
      | Some (Dir dm) => if dir_writable dm then Ok (<[d := Dir mode]> m) else Err OSError
      | Some (File _ _ _) => Err OSError
      | None =>
          match fuel with
          | O => Err OSError
          | S fuel' =>
              match mkdirs fuel' m (dirname d) 511 with
              | Ok m' => Ok (<[d := Dir mode]> m')
              | Err e => Err e
              end
          end
      end
  end.

Definition fs_makedirs (m : gmap string node) (d : string) (mode : Z)
  : result (gmap string node) :=
  if Str.is_empty d then Err OSError
  else mkdirs (String.length (abspath d)) m (abspath d) mode.

(** [listdir(d)]: the names of the entries whose directory is [d] *)
Definition fs_listdir (m : gmap string node) (d : string) : list string :=
  basename <$>
    filter (λ k, dirname k = abspath d ∧ k ≠ abspath d) (fst <$> map_to_list m).

(** *** Calls *)

(** The effect of a call on a host and its reply; [None] when the call
    waits (nothing to receive, nothing typed). *)
Definition perform (a : action) (w : host) : option (reply a * host) :=
  match a as a0 return option (reply a0 * host) with
  | Send m =>
      match faults w with
      | Some e :: _ => Some (Err e, send_failed m e w)
      | _ => Some (Ok tt, sent m w)
      end
  | Recv n =>
      match inbox w with
      | [] => None
      | Ok m :: _ => Some (Ok (Str.take n m), received n m w)
      | Err e :: _ => Some (Err e, recv_failed e w)
      end
  | PathExists p =>
      Some (fs_exists (fs w) p, log (EvExists p (fs_exists (fs w) p)) w)
  | Makedirs d mode =>
      match fs_makedirs (fs w) d mode with
      | Ok m' => Some (Ok tt, log (EvMakedirs d true) (set_fs m' w))
      | Err e => Some (Err e, log (EvMakedirs d false) w)
      end
  | Open p mode =>
      match fs_open (fs w) p mode with
      | Ok m' => Some (Ok tt, log (EvOpen p mode true) (set_fs m' w))
      | Err e => Some (Err e, log (EvOpen p mode false) w)
      end
  | Read p n => Some (fs_read (fs w) p n, log (EvRead p) w)
  | Write p data => Some (tt, log (EvWrite p data) (set_fs (fs_write (fs w) p data) w))
  | Listdir d => Some (fs_listdir (fs w) d, log (EvListdir d) w)
  | Close => Some (tt, log EvClose (set_closed true w))
  | DelClient a =>
      if decide (a ∈ clients w)
      then Some (Ok tt, log (EvDel a true) (set_clients (clients w ∖ {[a]}) w))
      else Some (Err KeyError, log (EvDel a false) w)
  | Input =>
      match stdin w with
      | [] => None
      | line :: rest => Some (line, log (EvInput line) (set_stdin rest w))
      end
  end.

Fixpoint run {R : Type} (p : prog R) (w : host) : status R * host :=
  match p with
  | Ret r => (Done r, w)
  | Raise e => (Uncaught e, w)
  | Vis a k =>
      match perform a w with
      | Some (r, w') => run (k r) w'
      | None => (Blocked (Vis a k), w)
      end
  end.

End Model.

(** ** The calls as programs *)

Definition send (m : string) : prog unit := Vis (Send m) call_result.
Definition recv (bufsize : N) : prog string := Vis (Recv bufsize) call_result.
Definition path_exists (p : string) : prog bool := Vis (PathExists p) Ret.
Definition makedirs (d : string) (mode : Z) : prog unit := Vis (Makedirs d mode) call_result.
Definition open (p : string) (m : open_mode) : prog unit := Vis (Open p m) call_result.
Definition read (p : string) (n : N) : prog string := Vis (Read p n) Ret.
Definition write (p data : string) : prog unit := Vis (Write p data) Ret.
Definition listdir (d : string) : prog (list string) := Vis (Listdir d) Ret.
Definition close : prog unit := Vis Close Ret.
Definition del_client (a : address) : prog unit := Vis (DelClient a) call_result.
Definition input : prog string := Vis Input Ret.

(** [args[i]] *)
Definition index (args : list string) (i : nat) : prog string :=
  match args !! i with
  | Some a => Ret a
  | None => Raise IndexError
  end.

(** [s in l] *)
Definition mem (s : string) (l : list string) : bool := existsb (String.eqb s) l.

(** [except OSError: raise InvalidCommandException] *)
Definition OSError_to_invalid {A : Type} (e : exn) : prog A :=
  if is_OSError e then Raise InvalidCommandException else Raise e.

(** [curdir] and the newline *)
Definition curdir : string := ".".
Definition NL : string := String (ascii_of_nat 10) EmptyString.

(** How an iteration of a main loop ends. *)
Inductive control : Type := Continue | Break.

(** ** The server, [server/server.py] *)

Module Server.
Section Programs.

Variables abspath dirname : string → string.

Definition valid_headers : list string := ["GET"; "PUT"; "LS"].

Definition esend (s : string) : prog unit := send s.

Definition vprint (is_valid : bool) : prog unit :=
  esend (if is_valid then "VALID" else "INVALID").

Definition get (args : list string) : prog unit :=
  if negb (length args =? 3)%nat then Raise InvalidCommandException else
  path <- index args 1 ;;
  catch (found <- path_exists path ;;
         if found then vprint true else Raise OSError)
        OSError_to_invalid ;;
  open path ModeR ;;
  data <- read path 4096 ;;
  if Str.is_empty data
  then esend Str.NUL ;; Raise EmptyFileException
  else esend data.

Definition put (args : list string) : prog unit :=
  if negb (length args =? 3)%nat then Raise InvalidCommandException else
  path <- index args 2 ;;
  path <- catch (let path := abspath path in
                 let dirs := dirname path in
                 found <- path_exists dirs ;;
                 (if negb found then makedirs dirs 1 else Ret tt) ;;
                 vprint true ;;
                 Ret path)
                OSError_to_invalid ;;
  open path ModeWPlus ;;
  data <- recv 4096 ;;
  if negb (Str.is_empty data) then write path data else Ret tt.

Definition ls (args : list string) : prog unit :=
  target <- index args 1 ;;
  if String.eqb target "server" && (length args =? 2)%nat
  then vprint true ;;
       ls_list <- listdir curdir ;;
       esend (Str.join NL ls_list)
  else Raise InvalidCommandException.

(** [locals()[name]()] *)
Definition dispatch (name : string) (args : list string) : prog unit :=
  if String.eqb name "get" then get args
  else if String.eqb name "put" then put args
  else if String.eqb name "ls" then ls args
  else Raise KeyError.

(** The [except] clauses of the loop of [handle_client]. *)
Definition on_error (e : exn) : prog control :=
  match e with
  | ConnectionError => Ret Break
  | InvalidCommandException => vprint false ;; Ret Continue
  | EmptyFileException => Ret Continue
  | _ => Raise e
  end.

(** One turn of the [while True] of [handle_client]. *)
Definition iteration : prog control :=
  catch (command <- recv 1024 ;;
         let args := Str.split_on " " command in
         header <- index args 0 ;;
         let header := Str.upper header in
         if mem header valid_headers
         then dispatch (Str.lower header) args ;; Ret Continue
         else Raise InvalidCommandException)
        on_error.

(** At most [n] turns of the loop: [true] when a [break] left it. *)
Fixpoint loop (n : nat) : prog bool :=
  match n with
  | O => Ret false
  | S n' =>
      c <- iteration ;;
      match c with
      | Continue => loop n'
      | Break => Ret true
      end
  end.

(** [handle_client(conn, address)], its loop cut at [n] turns: [true] when
    the function returned, [false] when the loop is still going. *)
Definition handle_client (n : nat) (addr : address) : prog bool :=
  left <- loop n ;;
  if left then close ;; del_client addr ;; Ret true
  else Ret false.

End Programs.
End Server.

(** ** The client, [client/client.py] *)

Module Client.
Section Programs.

Variables abspath dirname : string → string.

Definition valid_headers : list string := ["GET"; "PUT"; "LS"].

(** The look-up [validator[received]] fails on any other reply. *)
Definition valid_command (command : string) : prog bool :=
  send command ;;
  received <- recv 1024 ;;
  if String.eqb received "VALID" then Ret true
  else if String.eqb received "INVALID" then Ret false
  else Raise KeyError.

Definition get (command : string) (args : list string) : prog unit :=
  if negb (length args =? 3)%nat then Raise InvalidCommandException else
  path <- index args 2 ;;
  path <- catch (let path := abspath path in
                 found <- path_exists (dirname path) ;;
                 (if negb found then makedirs (dirname path) 1 else Ret tt) ;;
                 Ret path)
                OSError_to_invalid ;;
  ok <- valid_command command ;;
  if negb ok then Raise InvalidCommandException else
  open path ModeW ;;
  data <- recv 4096 ;;
  if negb (String.eqb data Str.NUL) then write path data else Ret tt.

Definition put (command : string) (args : list string) : prog unit :=
  if negb (length args =? 3)%nat then Raise InvalidCommandException else
  path <- index args 1 ;;
  path <- catch (let path := abspath path in
                 found <- path_exists path ;;
                 if negb found then Raise InvalidCommandException else Ret path)
                OSError_to_invalid ;;
  ok <- valid_command command ;;
  if negb ok then Raise InvalidCommandException else
  open path ModeR ;;
  data <- read path 4096 ;;
  send data.

(** The listing it returns is what [pprint_dir] prints. *)
Definition ls (command : string) (args : list string) : prog string :=
  if negb (length args =? 2)%nat then Raise InvalidCommandException else
  target <- index args 1 ;;
  if String.eqb target "client"
  then files <- listdir curdir ;; Ret (Str.join NL files)
  else if String.eqb target "server"
  then ok <- valid_command command ;;
       if negb ok then Raise InvalidCommandException else
       recv 4096
  else Raise InvalidCommandException.

(** [locals()[name]()] *)
Definition dispatch (name command : string) (args : list string) : prog unit :=
  if String.eqb name "get" then get command args
  else if String.eqb name "put" then put command args
  else if String.eqb name "ls" then ls command args ;; Ret tt
  else Raise KeyError.

(** The [except] clauses of the main loop. *)
Definition on_error (e : exn) : prog control :=
  match e with
  | ConnectionError => Ret Break
  | InvalidCommandException => Ret Continue
  | _ => Raise e
  end.

(** What the main loop does with a command line. *)
Definition execute (command : string) : prog control :=
  let args := Str.split_on " " command in
  header <- index args 0 ;;
  let header := Str.upper header in
  catch (if mem header valid_headers
         then dispatch (Str.lower header) command args ;; Ret Continue
         else Raise InvalidCommandException)
        on_error.

(** One turn of the [while True] of [main]; [quit] closes the socket and
    leaves the program. *)
Definition iteration : prog control :=
  command <- input ;;
  if String.eqb command "quit" then close ;; Ret Break
  else execute command.

(** At most [n] turns of the loop: [true] when the program left it. *)
Fixpoint main (n : nat) : prog bool :=
  match n with
  | O => Ret false
  | S n' =>
      c <- iteration ;;
      match c with
      | Continue => main n'
      | Break => Ret true
      end
  end.

End Programs.
End Client.

(** ** The listener and two hosts talking *)

Section Sessions.

Variables abspath dirname basename : string → string.

Let run {R : Type} := @run abspath dirname basename R.

(** A connection as the listener accepts it: the remote address and what
    the socket will do. *)
Record connection : Type := Connection {
  peer : address;
  incoming : list (result string);
  send_faults : list (option exn)
}.

Definition accept (c : connection) (w : host) : host :=
  set_closed false (set_outbox [] (set_faults (send_faults c) (set_inbox (incoming c) w))).

(** The thread of a session runs beside the accept loop, so the look-up
    [clients[address]] of [clients[address].join()] takes place before the
    thread has ended, or after it. *)
Inductive join_lookup : Type := BeforeThreadEnds | AfterThreadEnds.

(** One turn of the accept loop of the server's [main]: the thread is
    stored under the address, started and joined.  An exception that ends
    the thread stays in the thread; the look-up for the [join] raises
    [KeyError] in [main] when the thread has already removed its entry. *)
Definition main_step (n : nat) (when : join_lookup) (w : host) (c : connection)
  : status unit * host :=
  let w := accept c w in
  let w := set_clients ({[peer c]} ∪ clients w) w in
  let w := snd (run (Server.handle_client abspath dirname n (peer c)) w) in
  match when with
  | BeforeThreadEnds => (Done tt, w)
  | AfterThreadEnds =>
      if decide (peer c ∈ clients w) then (Done tt, w) else (Uncaught KeyError, w)
  end.

(** The accept loop over the connections to come, each with the moment
    of its look-up: an exception ends the loop. *)
Fixpoint main (n : nat) (conns : list (connection * join_lookup)) (w : host)
  : status unit * host :=
  match conns with
  | [] => (Done tt, w)
  | (c, when) :: rest =>
      match main_step n when w c with
      | (Done _, w') => main n rest w'
      | stopped => stopped
      end
  end.

(** The program a run stopped in. *)
Definition resume {R : Type} (s : status R) : prog R :=
  match s with
  | Done r => Ret r
  | Uncaught e => Raise e
  | Blocked p => p
  end.

(** Hands over what [from] has sent. *)
Definition deliver (from to : host) : host :=
  set_inbox (inbox to ++ (Ok <$> outbox from)) to.
Definition flush (w : host) : host := set_outbox [] w.

(** A client and a server on one connection, each running until it
    waits, [rounds] times, the messages passing between the runs. *)
Fixpoint exchange {A B : Type} (rounds : nat)
    (pc : prog A) (c : host) (ps : prog B) (s : host)
  : (status A * host) * (status B * host) :=
  match rounds with
  | O => (run pc c, run ps s)
  | S rounds' =>
      let '(stc, c) := run pc c in
      let s := deliver c s in
      let c := flush c in
      let '(sts, s) := run ps s in
      let c := deliver s c in
      let s := flush s in
      exchange rounds' (resume stc) c (resume sts) s
  end.

End Sessions.

(** ** Concrete paths for the examples *)

(** [posixpath.dirname] and [basename]; [abspath] for paths that are
    already normal (no [.], [..] or doubled slash), in the working directory
    [/srv]; a leading [./] is dropped. *)
Module Posix.

Definition is_slash (c : ascii) : bool := Ascii.eqb c "/".

Fixpoint has_slash (s : string) : bool :=
  match s with
  | EmptyString => false
  | String c s' => is_slash c || has_slash s'
  end.

(** [p[:p.rfind('/') + 1]] *)
Fixpoint head (p : string) : string :=
  match p with
  | EmptyString => EmptyString
  | String c p' => if is_slash c || has_slash p' then String c (head p') else EmptyString
  end.

Fixpoint all_slashes (s : string) : bool :=
  match s with
  | EmptyString => true
  | String c s' => is_slash c && all_slashes s'
  end.

(** [s.rstrip('/')] *)
Fixpoint rstrip (s : string) : string :=
  match s with
  | EmptyString => EmptyString
  | String c s' =>
      let t := rstrip s' in
      if Str.is_empty t && is_slash c then EmptyString else String c t
  end.

Definition dirname (p : string) : string :=
  let h := head p in
  if all_slashes h then h else rstrip h.

Definition basename (p : string) : string :=
  Str.drop (Str.len (head p)) p.

Definition cwd : string := "/srv".

Definition abspath (p : string) : string :=
  match p with
  | EmptyString => cwd
  | String "." EmptyString => cwd
  | String "." (String "/" p') => cwd +:+ "/" +:+ p'
  | String c _ => if is_slash c then p else cwd +:+ "/" +:+ p
  end.

Definition run {R : Type} := @run abspath dirname basename R.

(** These paths are absolute, and neither they nor their directories are
    the empty string. *)
Lemma abspath_absolute (p : string) : ∃ q, abspath p = String "/" q.
Proof.
  destruct p as [|c p]; [by eexists|].
  destruct (Ascii.eqb_spec c ".") as [->|Hdot].
  - destruct p as [|c' p]; [by eexists|].
    destruct (Ascii.eqb_spec c' "/") as [->|Hs]; [by eexists|].
    assert (abspath (String "." (String c' p)) = cwd +:+ "/" +:+ String "." (String c' p)) as ->
      by (unfold abspath; destruct c' as [[] [] [] [] [] [] [] []]; try reflexivity; done).
    by eexists.
  - destruct (is_slash c) eqn:Hc.
    + apply Ascii.eqb_eq in Hc. subst c. by eexists.
    + assert (abspath (String c p) = cwd +:+ "/" +:+ String c p) as ->.
      { unfold abspath. rewrite Hc.
        destruct c as [[] [] [] [] [] [] [] []]; try reflexivity; done. }
      by eexists.
Qed.

Lemma abspath_not_empty (p : string) : abspath p ≠ "".
Proof. destruct (abspath_absolute p) as [q ->]. discriminate. Qed.

Lemma rstrip_empty (s : string) : rstrip s = "" → all_slashes s = true.
Proof.
  induction s as [|c s IH]; [done|]. cbn.
  destruct (rstrip s) eqn:E; cbn; [|discriminate].
  destruct (is_slash c); [|discriminate]. intros _. by apply IH.
Qed.

Lemma dirname_not_empty (p : string) : dirname (abspath p) ≠ "".
Proof.
  destruct (abspath_absolute p) as [q ->]. unfold dirname.
  change (head (String "/" q)) with (String "/" (head q)).
  destruct (all_slashes (String "/" (head q))) eqn:E; [discriminate|].
  intros H. apply rstrip_empty in H. congruence.
Qed.

End Posix.

(** * Properties *)

Arguments Str.split_on : simpl never.
Arguments Str.take : simpl never.
Arguments Str.drop : simpl never.
Arguments Str.join : simpl never.

(** ** Programs that make only certain calls *)

Inductive only_calls {R : Type} (safe : action → bool) : prog R → Prop :=
| only_ret r : only_calls safe (Ret r)
| only_raise e : only_calls safe (Raise e)
| only_vis a k :
    safe a = true → (∀ r, only_calls safe (k r)) → only_calls safe (Vis a k).

Lemma only_calls_bind {A B : Type} (safe : action → bool) (p : prog A) (f : A → prog B) :
  only_calls safe p → (∀ x, only_calls safe (f x)) → only_calls safe (bind p f).
Proof.
  intros Hp Hf. induction Hp; cbn; [apply Hf | constructor | constructor; auto].
Qed.

Lemma only_calls_catch {A : Type} (safe : action → bool) (p : prog A) (h : exn → prog A) :
  only_calls safe p → (∀ e, only_calls safe (h e)) → only_calls safe (catch p h).
Proof.
  intros Hp Hh. induction Hp; cbn; [constructor | apply Hh | constructor; auto].
Qed.

Lemma only_calls_call_result {A : Type} (safe : action → bool) (r : result A) :
  only_calls safe (call_result r).
Proof. destruct r; constructor. Qed.

Lemma only_calls_index (safe : action → bool) (args : list string) (i : nat) :
  only_calls safe (index args i).
Proof. unfold index. destruct (args !! i); constructor. Qed.

Lemma only_calls_OSError_to_invalid {A : Type} (safe : action → bool) (e : exn) :
  only_calls safe (@OSError_to_invalid A e).
Proof. unfold OSError_to_invalid. destruct (is_OSError e); constructor. Qed.

(** Proves [only_calls] for a program written with the combinators. *)
Ltac only_calls_tac :=
  repeat first
    [ apply only_calls_call_result
    | apply only_calls_index
    | apply only_calls_OSError_to_invalid
    | apply only_calls_bind
    | apply only_calls_catch
    | apply only_ret
    | apply only_raise
    | apply only_vis; [reflexivity |]
    | progress intros
    | match goal with
      | |- only_calls _ (if ?b then _ else _) => destruct b
      | |- only_calls _ (match ?e with _ => _ end) => destruct e
      end ].

(** Calls that leave the file system as it is. *)
Definition reads_only (a : action) : bool :=
  match a with
  | Makedirs _ _ | Write _ _ => false
  | Open _ m => bool_decide (m = ModeR)
  | _ => true
  end.

(** Calls that leave the [clients] dictionary and the socket's state as
    they are. *)
Definition no_cleanup (a : action) : bool :=
  match a with
  | DelClient _ | Close => false
  | _ => true
  end.

(** The events of calls that change nothing in the file system. *)
Definition quiet (e : event) : bool :=
  match e with
  | EvMakedirs _ _ | EvWrite _ _ => false
  | EvOpen _ m _ => bool_decide (m = ModeR)
  | _ => true
  end.

Definition next_send_ok (w : host) : Prop :=
  match faults w with
  | Some _ :: _ => False
  | _ => True
  end.

Section RunFacts.

Variables abspath dirname basename : string → string.

Local Abbreviation exec := (run abspath dirname basename).
Local Abbreviation perform := (perform abspath dirname basename).

Lemma run_bind {A B : Type} (p : prog A) (f : A → prog B) (w : host) :
  exec (bind p f) w =
  match exec p w with
  | (Done r, w') => exec (f r) w'
  | (Uncaught e, w') => (Uncaught e, w')
  | (Blocked p', w') => (Blocked (bind p' f), w')
  end.
Proof.
  revert w. induction p as [r|e|a k IH]; intros w; cbn; try reflexivity.
  destruct (perform a w) as [[r w']|] eqn:E; cbn; auto.
Qed.

Lemma run_catch {A : Type} (p : prog A) (h : exn → prog A) (w : host) :
  exec (catch p h) w =
  match exec p w with
  | (Done r, w') => (Done r, w')
  | (Uncaught e, w') => exec (h e) w'
  | (Blocked p', w') => (Blocked (catch p' h), w')
  end.
Proof.
  revert w. induction p as [r|e|a k IH]; intros w; cbn; try reflexivity.
  destruct (perform a w) as [[r w']|] eqn:E; cbn; auto.
Qed.

(** An invariant kept by every call a program may make is kept by its
    runs. *)
Lemma run_invariant {R : Type} (safe : action → bool) (I : host → Prop) :
  (∀ a w r w', safe a = true → I w → perform a w = Some (r, w') → I w') →
  ∀ p : prog R, only_calls safe p → ∀ w, I w → I (snd (exec p w)).
Proof.
  intros Hstep p Hp. induction Hp as [r|e|a k Ha Hk IH]; intros w Hw; cbn; auto.
  destruct (perform a w) as [[r w']|] eqn:E; cbn; auto.
  eapply IH, Hstep; eauto.
Qed.

Lemma perform_reads_only (a : action) (w w' : host) (r : reply a) :
  reads_only a = true → perform a w = Some (r, w') →
  fs w' = fs w ∧ ∃ e, trace w' = trace w ++ [e] ∧ quiet e = true.
Proof.
  destruct a; cbn; try discriminate; intros Hs H;
    try (apply bool_decide_eq_true in Hs; subst; unfold fs_open in *; cbn in * );
    repeat case_match; simplify_eq; cbn; eauto.
Qed.

Lemma run_reads_only {R : Type} (p : prog R) (w : host) :
  only_calls reads_only p →
  fs (snd (exec p w)) = fs w ∧
  (Forall (λ e, quiet e = true) (trace w) →
   Forall (λ e, quiet e = true) (trace (snd (exec p w)))).
Proof.
  intros Hp.
  apply (run_invariant reads_only
           (λ w', fs w' = fs w ∧
                  (Forall (λ e, quiet e = true) (trace w) →
                   Forall (λ e, quiet e = true) (trace w')))); auto.
  intros a w1 r w2 Ha [Hfs Htr] Hperf.
  destruct (perform_reads_only a w1 w2 r Ha Hperf) as (Hfs' & e & He & Hq).
  split; [congruence|]. intros H. rewrite He. apply Forall_app; split; auto.
Qed.

Lemma perform_no_cleanup (a : action) (w w' : host) (r : reply a) :
  no_cleanup a = true → perform a w = Some (r, w') →
  clients w' = clients w ∧ conn_closed w' = conn_closed w.
Proof.
  destruct a; cbn; try discriminate; intros Hs H;
    repeat case_match; simplify_eq; cbn; eauto.
Qed.

Lemma run_no_cleanup {R : Type} (p : prog R) (w : host) :
  only_calls no_cleanup p →
  clients (snd (exec p w)) = clients w ∧
  conn_closed (snd (exec p w)) = conn_closed w.
Proof.
  intros Hp.
  apply (run_invariant no_cleanup
           (λ w', clients w' = clients w ∧ conn_closed w' = conn_closed w)); auto.
  intros a w1 r w2 Ha [Hc Hcl] Hperf.
  destruct (perform_no_cleanup a w1 w2 r Ha Hperf) as [Hc' Hcl']. split; congruence.
Qed.

(** *** One call at a time *)

Lemma exec_send_ok {R : Type} (m : string) (k : result unit → prog R) (w : host) :
  next_send_ok w → exec (Vis (Send m) k) w = exec (k (Ok tt)) (sent m w).
Proof.
  unfold next_send_ok. cbn. destruct (faults w) as [|[e|] f]; cbn; intros H; done.
Qed.

Lemma exec_send_failed {R : Type} (m : string) (k : result unit → prog R) (w : host)
    (e : exn) (f : list (option exn)) :
  faults w = Some e :: f → exec (Vis (Send m) k) w = exec (k (Err e)) (send_failed m e w).
Proof. intros H. cbn. rewrite H. reflexivity. Qed.

Lemma exec_recv {R : Type} (n : N) (k : result string → prog R) (w : host)
    (m : string) (rest : list (result string)) :
  inbox w = Ok m :: rest →
  exec (Vis (Recv n) k) w = exec (k (Ok (Str.take n m))) (received n m w).
Proof. intros H. cbn. rewrite H. reflexivity. Qed.

Lemma exec_recv_failed {R : Type} (n : N) (k : result string → prog R) (w : host)
    (e : exn) (rest : list (result string)) :
  inbox w = Err e :: rest →
  exec (Vis (Recv n) k) w = exec (k (Err e)) (recv_failed e w).
Proof. intros H. cbn. rewrite H. reflexivity. Qed.

Lemma exec_recv_blocked {R : Type} (n : N) (k : result string → prog R) (w : host) :
  inbox w = [] → exec (Vis (Recv n) k) w = (Blocked (Vis (Recv n) k), w).
Proof. intros H. cbn. rewrite H. reflexivity. Qed.

Lemma exec_exists {R : Type} (p : string) (k : bool → prog R) (w : host) :
  exec (Vis (PathExists p) k) w
  = exec (k (fs_exists abspath (fs w) p)) (log (EvExists p (fs_exists abspath (fs w) p)) w).
Proof. reflexivity. Qed.

Lemma exec_open_ok {R : Type} (p : string) (mode : open_mode) (k : result unit → prog R)
    (w : host) (m' : gmap string node) :
  fs_open abspath dirname (fs w) p mode = Ok m' →
  exec (Vis (Open p mode) k) w = exec (k (Ok tt)) (log (EvOpen p mode true) (set_fs m' w)).
Proof. intros H. cbn. rewrite H. reflexivity. Qed.

Lemma exec_open_failed {R : Type} (p : string) (mode : open_mode) (k : result unit → prog R)
    (w : host) (e : exn) :
  fs_open abspath dirname (fs w) p mode = Err e →
  exec (Vis (Open p mode) k) w = exec (k (Err e)) (log (EvOpen p mode false) w).
Proof. intros H. cbn. rewrite H. reflexivity. Qed.

Lemma exec_read {R : Type} (p : string) (n : N) (k : string → prog R) (w : host) :
  exec (Vis (Read p n) k) w = exec (k (fs_read abspath (fs w) p n)) (log (EvRead p) w).
Proof. reflexivity. Qed.

Lemma exec_write {R : Type} (p data : string) (k : unit → prog R) (w : host) :
  exec (Vis (Write p data) k) w
  = exec (k tt) (log (EvWrite p data) (set_fs (fs_write abspath (fs w) p data) w)).
Proof. reflexivity. Qed.

Lemma exec_listdir {R : Type} (d : string) (k : list string → prog R) (w : host) :
  exec (Vis (Listdir d) k) w
  = exec (k (fs_listdir abspath dirname basename (fs w) d)) (log (EvListdir d) w).
Proof. reflexivity. Qed.

Lemma exec_close {R : Type} (k : unit → prog R) (w : host) :
  exec (Vis Close k) w = exec (k tt) (log EvClose (set_closed true w)).
Proof. reflexivity. Qed.

Lemma exec_del {R : Type} (a : address) (k : result unit → prog R) (w : host) :
  a ∈ clients w →
  exec (Vis (DelClient a) k) w
  = exec (k (Ok tt)) (log (EvDel a true) (set_clients (clients w ∖ {[a]}) w)).
Proof. intros H. cbn. rewrite decide_True by done. reflexivity. Qed.

Lemma exec_del_missing {R : Type} (a : address) (k : result unit → prog R) (w : host) :
  a ∉ clients w →
  exec (Vis (DelClient a) k) w = exec (k (Err KeyError)) (log (EvDel a false) w).
Proof. intros H. cbn. rewrite decide_False by done. reflexivity. Qed.

Lemma exec_input {R : Type} (k : string → prog R) (w : host)
    (line : string) (rest : list string) :
  stdin w = line :: rest →
  exec (Vis Input k) w = exec (k line) (log (EvInput line) (set_stdin rest w)).
Proof. intros H. cbn. rewrite H. reflexivity. Qed.

Lemma exec_ret {R : Type} (r : R) (w : host) : exec (Ret r) w = (Done r, w).
Proof. reflexivity. Qed.

Lemma exec_raise {R : Type} (e : exn) (w : host) : exec (@Raise R e) w = (Uncaught e, w).
Proof. reflexivity. Qed.

End RunFacts.

Arguments run : simpl never.

(** ** Strings *)

Lemma take_all (n : N) (s : string) : (Str.len s ≤ n)%N → Str.take n s = s.
Proof.
  unfold Str.len. revert n. induction s as [|c s IH]; intros n H; [reflexivity|].
  cbn [String.length] in H.
  change (Str.take n (String c s))
    with (if (n =? 0)%N then "" else String c (Str.take (N.pred n) s)).
  destruct (N.eqb_spec n 0) as [->|Hn]; [lia|]. f_equal. apply IH. lia.
Qed.

Lemma drop_all (n : N) (s : string) : (Str.len s ≤ n)%N → Str.drop n s = "".
Proof.
  unfold Str.len. revert n. induction s as [|c s IH]; intros n H; [reflexivity|].
  cbn [String.length] in H.
  change (Str.drop n (String c s))
    with (if (n =? 0)%N then String c s else Str.drop (N.pred n) s).
  destruct (N.eqb_spec n 0) as [->|Hn]; [lia|]. apply IH. lia.
Qed.

Lemma is_empty_true (s : string) : Str.is_empty s = true ↔ s = "".
Proof. destruct s; cbn; split; congruence. Qed.

Lemma is_empty_false (s : string) : s ≠ "" → Str.is_empty s = false.
Proof. by destruct s. Qed.

(** Splitting and joining: a piece that does not hold the separator comes
    back as it went in. *)
Lemma split_on_piece (sep : ascii) (x : string) :
  Str.has_char sep x = false → Str.split_on sep x = [x].
Proof.
  induction x as [|c x IH]; [reflexivity|]. cbn [Str.has_char]. intros H.
  apply orb_false_iff in H as [Hc Hx].
  change (Str.split_on sep (String c x))
    with (if Ascii.eqb c sep then EmptyString :: Str.split_on sep x
          else match Str.split_on sep x with
               | w :: ws => String c w :: ws
               | [] => [String c EmptyString]
               end).
  by rewrite Hc, (IH Hx).
Qed.

Lemma split_on_pieces (sep : ascii) (x rest : string) :
  Str.has_char sep x = false →
  Str.split_on sep (x +:+ String sep rest) = x :: Str.split_on sep rest.
Proof.
  induction x as [|c x IH]; cbn [Str.has_char]; intros H.
  - change ("" +:+ String sep rest) with (String sep rest).
    change (Str.split_on sep (String sep rest))
      with (if Ascii.eqb sep sep then EmptyString :: Str.split_on sep rest
            else match Str.split_on sep rest with
                 | w :: ws => String sep w :: ws
                 | [] => [String sep EmptyString]
                 end).
    by rewrite Ascii.eqb_refl.
  - apply orb_false_iff in H as [Hc Hx].
    change (String c x +:+ String sep rest) with (String c (x +:+ String sep rest)).
    change (Str.split_on sep (String c (x +:+ String sep rest)))
      with (if Ascii.eqb c sep then EmptyString :: Str.split_on sep (x +:+ String sep rest)
            else match Str.split_on sep (x +:+ String sep rest) with
                 | w :: ws => String c w :: ws
                 | [] => [String c EmptyString]
                 end).
    by rewrite Hc, (IH Hx).
Qed.

Lemma split_on_join (sep : ascii) (names : list string) :
  names ≠ [] →
  Forall (λ x, Str.has_char sep x = false) names →
  Str.split_on sep (Str.join (String sep EmptyString) names) = names.
Proof.
  induction names as [|x names IH]; [done|]. intros _ H.
  apply Forall_cons in H as [Hx Hnames].
  destruct names as [|y names].
  - change (Str.join (String sep "") [x]) with x. by apply split_on_piece.
  - change (Str.join (String sep "") (x :: y :: names))
      with (x +:+ String sep "" +:+ Str.join (String sep "") (y :: names)).
    change (x +:+ String sep "" +:+ Str.join (String sep "") (y :: names))
      with (x +:+ String sep (Str.join (String sep "") (y :: names))).
    rewrite (split_on_pieces sep x _ Hx). f_equal. by apply IH.
Qed.

(** ** The file system, call by call *)

Section FileFacts.

Variables abspath dirname : string → string.

(** In each of these [k] is the path [p] resolved. *)
Lemma fs_exists_found (m : gmap string node) (p k : string) (nd : node) :
  p ≠ "" → abspath p = k → m !! k = Some nd → fs_exists abspath m p = true.
Proof. intros Hp <- H. unfold fs_exists. by rewrite (is_empty_false p Hp), H. Qed.

Lemma fs_exists_missing (m : gmap string node) (p k : string) :
  abspath p = k → m !! k = None → fs_exists abspath m p = false.
Proof. intros <- H. unfold fs_exists. rewrite H. by destruct (Str.is_empty p). Qed.

Lemma fs_exists_true (m : gmap string node) (p : string) :
  fs_exists abspath m p = true → p ≠ "" ∧ is_Some (m !! abspath p).
Proof.
  unfold fs_exists. destruct p; [done|]. cbn.
  destruct (m !! abspath _); [eauto|done].
Qed.

Lemma fs_open_to_read (m : gmap string node) (p k : string) (wr : bool) (c : string) :
  p ≠ "" → abspath p = k → m !! k = Some (File true wr c) →
  fs_open abspath dirname m p ModeR = Ok m.
Proof. intros Hp <- H. unfold fs_open. by rewrite (is_empty_false p Hp), H. Qed.


Lemma fs_open_to_create (m : gmap string node) (p k : string) (mode : open_mode) (dm : Z) :
  p ≠ "" → mode ≠ ModeR → abspath p = k → m !! k = None →
  m !! dirname k = Some (Dir dm) → dir_writable dm = true →
  fs_open abspath dirname m p mode = Ok (<[k := File true true ""]> m).
Proof.
  intros Hp Hm <- H Hd Hw. unfold fs_open. rewrite (is_empty_false p Hp), H, Hd, Hw.
  by destruct mode.
Qed.

End FileFacts.

(** A path that is not empty, from what is at hand. *)
Ltac not_empty :=
  first [ assumption
        | match goal with H : ∀ p : string, @?f p ≠ "" |- _ => apply H end ].

(** What [exists] and [open] answer, from what is known of the path. *)
Ltac exists_yes :=
  solve [ eapply fs_exists_found; [not_empty | eassumption | eassumption]
        | eapply fs_exists_found; [not_empty | reflexivity | eassumption] ].
Ltac exists_no :=
  solve [ eapply fs_exists_missing; [eassumption | eassumption]
        | eapply fs_exists_missing; [reflexivity | eassumption] ].
Ltac opens_to_read :=
  solve [ eapply fs_open_to_read; [not_empty | eassumption | eassumption]
        | eapply fs_open_to_read; [not_empty | reflexivity | eassumption] ].

(** ** Running a program by hand *)

(** One call of a symbolic run, with what it needs read off the goal. *)
Ltac use_facts :=
  repeat (first
            [ rewrite take_all by first [assumption | vm_compute; discriminate]
            | rewrite drop_all by first [assumption | vm_compute; discriminate]
            | match goal with
              | H : Str.is_empty _ = _ |- _ => rewrite H
              | H : fs_exists _ _ _ = _ |- _ => rewrite H
              | H : fs_read _ _ _ _ = _ |- _ => rewrite H
              | H : fs_write _ _ _ _ = _ |- _ => rewrite H
              | H : String.eqb _ _ = _ |- _ => rewrite H
              end ]; cbn).
Ltac tidy :=
  unfold deliver, flush, sent, send_failed, received, recv_failed, log,
    set_fs, set_inbox, set_faults, set_outbox, set_closed, set_clients, set_stdin;
  cbn; use_facts.
Ltac side := tidy; first [reflexivity | eassumption | exact I].
Ltac step :=
  first [ rewrite exec_exists
        | rewrite exec_read
        | rewrite exec_write
        | rewrite exec_listdir
        | rewrite exec_close
        | rewrite exec_send_ok by side
        | erewrite exec_recv by side
        | rewrite exec_recv_blocked by side
        | erewrite exec_input by side
        | erewrite exec_open_ok by side
        | rewrite exec_ret
        | rewrite exec_raise ]; tidy.

(** ** The server's session *)

Section ServerFacts.

Variables abspath dirname basename : string → string.

(** [abspath] gives an absolute path, [dirname] of one its directory;
    neither is ever the empty string. *)
Hypothesis abspath_not_empty : ∀ p, abspath p ≠ "".
Hypothesis dirname_not_empty : ∀ p, dirname (abspath p) ≠ "".

Local Abbreviation exec := (run abspath dirname basename).
Local Abbreviation iteration := (Server.iteration abspath dirname).
Local Abbreviation handle_client := (Server.handle_client abspath dirname).

(** The arguments and the header of a command line as the server reads
    them. *)
Definition args_of (command : string) : list string :=
  Str.split_on " " (Str.take 1024 command).

Definition header_of (command : string) : option string :=
  Str.upper <$> (args_of command !! 0%nat).

(** What [iteration] does once it has received [command]. *)
Definition handle (command : string) : prog control :=
  catch (let args := Str.split_on " " command in
         header <- index args 0 ;;
         let header := Str.upper header in
         if mem header Server.valid_headers
         then Server.dispatch abspath dirname (Str.lower header) args ;; Ret Continue
         else Raise InvalidCommandException)
        Server.on_error.

Lemma exec_iteration (w : host) (command : string) (rest : list (result string)) :
  inbox w = Ok command :: rest →
  exec iteration w = exec (handle (Str.take 1024 command)) (received 1024 command w).
Proof.
  intros Hin. unfold Server.iteration, handle, recv. cbn.
  rewrite (exec_recv _ _ _ _ _ _ command rest Hin). reflexivity.
Qed.

Lemma handle_GET (command h : string) :
  Str.split_on " " command !! 0%nat = Some h → Str.upper h = "GET" →
  handle command =
  catch (Server.get (Str.split_on " " command) ;; Ret Continue) Server.on_error.
Proof.
  intros E Hh. unfold handle, index. rewrite E. cbn. rewrite Hh. reflexivity.
Qed.

Lemma handle_PUT (command h : string) :
  Str.split_on " " command !! 0%nat = Some h → Str.upper h = "PUT" →
  handle command =
  catch (Server.put abspath dirname (Str.split_on " " command) ;; Ret Continue)
        Server.on_error.
Proof.
  intros E Hh. unfold handle, index. rewrite E. cbn. rewrite Hh. reflexivity.
Qed.

Lemma handle_LS (command h : string) :
  Str.split_on " " command !! 0%nat = Some h → Str.upper h = "LS" →
  handle command =
  catch (Server.ls (Str.split_on " " command) ;; Ret Continue) Server.on_error.
Proof.
  intros E Hh. unfold handle, index. rewrite E. cbn. rewrite Hh. reflexivity.
Qed.

(** A header that is none of the three. *)
Lemma handle_unknown (command h : string) :
  Str.split_on " " command !! 0%nat = Some h →
  mem (Str.upper h) Server.valid_headers = false →
  handle command = (Server.vprint false ;; Ret Continue).
Proof.
  intros E Hh. unfold handle, index. rewrite E. cbn -[mem]. rewrite Hh. reflexivity.
Qed.

(** The loop, one turn unrolled. *)
Lemma exec_loop_S (n : nat) (w : host) :
  exec (Server.loop abspath dirname (S n)) w =
  match exec iteration w with
  | (Done Continue, w') => exec (Server.loop abspath dirname n) w'
  | (Done Break, w') => (Done true, w')
  | (Uncaught e, w') => (Uncaught e, w')
  | (Blocked p', w') =>
      (Blocked (c <- p' ;;
                match c with
                | Continue => Server.loop abspath dirname n
                | Break => Ret true
                end), w')
  end.
Proof.
  change (Server.loop abspath dirname (S n))
    with (c <- iteration ;;
          match c with Continue => Server.loop abspath dirname n | Break => Ret true end).
  rewrite run_bind. destruct (exec iteration w) as [[[]|e|p'] w']; reflexivity.
Qed.

(** *** GET touches nothing *)

Lemma get_reads_only (args : list string) :
  only_calls reads_only (Server.get args).
Proof.
  unfold Server.get, Server.vprint, Server.esend, send, path_exists, open, read.
  only_calls_tac.
Qed.

(** C10: handling a GET command leaves the server's file system exactly
    as it was, whether the request is accepted, rejected, names an empty
    file or ends in an exception; and the handling makes no call that
    creates or writes: every file it opens, it opens for reading. *)
Theorem GET_leaves_server_files_unchanged
    (w : host) (command : string) (rest : list (result string)) :
  inbox w = Ok command :: rest →
  header_of command = Some "GET" →
  trace w = [] →
  fs (snd (exec iteration w)) = fs w ∧
  Forall (λ e, quiet e = true) (trace (snd (exec iteration w))).
Proof.
  intros Hin Hh Htr. rewrite (exec_iteration w command rest Hin).
  unfold header_of, args_of in Hh.
  destruct (Str.split_on " " (Str.take 1024 command) !! 0%nat) as [h|] eqn:E;
    [|discriminate].
  injection Hh as Hh. rewrite (handle_GET _ h E Hh).
  match goal with
  | |- context [exec ?p ?w1] =>
      destruct (run_reads_only abspath dirname basename p w1) as [Hfs Hq]
  end.
  - apply only_calls_catch.
    + apply only_calls_bind; [apply get_reads_only | intros; constructor].
    + intros e. unfold Server.on_error, Server.vprint, Server.esend, send.
      only_calls_tac.
  - split; [exact Hfs|]. apply Hq. cbn. rewrite Htr. repeat constructor.
Qed.

(** *** Arity *)

Lemma exec_iteration_LS_alone
    (w : host) (command h : string) (rest : list (result string)) :
  inbox w = Ok command :: rest →
  args_of command = [h] →
  Str.upper h = "LS" →
  exec iteration w = (Uncaught IndexError, received 1024 command w).
Proof.
  intros Hin Hargs Hh. unfold args_of in Hargs.
  rewrite (exec_iteration w command rest Hin).
  rewrite (handle_LS _ h); [|by rewrite Hargs|done].
  unfold Server.ls, index. rewrite Hargs. reflexivity.
Qed.

Lemma exec_handle_client_LS_alone
    (w : host) (command h : string) (rest : list (result string))
    (n : nat) (addr : address) :
  inbox w = Ok command :: rest →
  args_of command = [h] →
  Str.upper h = "LS" →
  exec (handle_client (S n) addr) w
  = (Uncaught IndexError, received 1024 command w).
Proof.
  intros Hin Hargs Hh.
  unfold Server.handle_client. rewrite run_bind, exec_loop_S.
  rewrite (exec_iteration_LS_alone w command h rest Hin Hargs Hh). reflexivity.
Qed.

(** C2 (the code departs from it): a command line that is the header
    [LS] alone makes [ls] index [args[1]] before it looks at the length;
    the [IndexError] leaves [handle_client]: nothing is sent (no INVALID),
    the socket stays open and the address stays in [clients]. *)
Theorem LS_alone_raises_IndexError
    (w : host) (command h : string) (rest : list (result string))
    (n : nat) (addr : address) :
  inbox w = Ok command :: rest →
  args_of command = [h] →
  Str.upper h = "LS" →
  fst (exec (handle_client (S n) addr) w) = Uncaught IndexError
  ∧ trace (snd (exec (handle_client (S n) addr) w))
    = trace w ++ [EvReceived (Str.take 1024 command)]
  ∧ outbox (snd (exec (handle_client (S n) addr) w)) = outbox w
  ∧ fs (snd (exec (handle_client (S n) addr) w)) = fs w
  ∧ conn_closed (snd (exec (handle_client (S n) addr) w)) = conn_closed w
  ∧ clients (snd (exec (handle_client (S n) addr) w)) = clients w.
Proof.
  intros Hin Hargs Hh.
  rewrite (exec_handle_client_LS_alone w command h rest n addr Hin Hargs Hh).
  cbn. done.
Qed.

(** Discharges [next_send_ok] from what is known of [faults]. *)
Ltac send_ok :=
  unfold next_send_ok; cbn;
  repeat match goal with H : faults _ = _ |- _ => rewrite H end; cbn; exact I.

(** GET and PUT with a wrong number of arguments: the reply is INVALID
    and the loop goes on. *)
Lemma GET_PUT_wrong_arity
    (w : host) (command h : string) (rest : list (result string)) :
  inbox w = Ok command :: rest →
  args_of command !! 0%nat = Some h →
  Str.upper h = "GET" ∨ Str.upper h = "PUT" →
  length (args_of command) ≠ 3%nat →
  faults w = [] →
  exec iteration w = (Done Continue, sent "INVALID" (received 1024 command w)).
Proof.
  intros Hin Hargs Hh Hlen Hok. unfold args_of in *.
  rewrite (exec_iteration w command rest Hin).
  apply Nat.eqb_neq in Hlen.
  destruct Hh as [Hh|Hh];
    [rewrite (handle_GET _ h Hargs Hh) | rewrite (handle_PUT _ h Hargs Hh)];
    unfold Server.get, Server.put; rewrite Hlen; cbn;
    rewrite exec_send_ok by send_ok; reflexivity.
Qed.

(** LS with anything but the one argument [server]. *)
Lemma LS_wrong_arguments
    (w : host) (command h target : string) (rest : list (result string)) :
  inbox w = Ok command :: rest →
  args_of command !! 0%nat = Some h →
  args_of command !! 1%nat = Some target →
  Str.upper h = "LS" →
  length (args_of command) ≠ 2%nat ∨ target ≠ "server" →
  faults w = [] →
  exec iteration w = (Done Continue, sent "INVALID" (received 1024 command w)).
Proof.
  intros Hin Hargs Hargs1 Hh Hbad Hok. unfold args_of in *.
  rewrite (exec_iteration w command rest Hin).
  rewrite (handle_LS _ h Hargs Hh).
  unfold Server.ls, index. rewrite Hargs1. cbn.
  assert (String.eqb target "server"
          && (length (Str.split_on " " (Str.take 1024 command)) =? 2)%nat = false) as ->.
  { apply andb_false_iff. destruct Hbad as [Hlen|Ht].
    - right. by apply Nat.eqb_neq.
    - left. by apply String.eqb_neq. }
  cbn. rewrite exec_send_ok by send_ok. reflexivity.
Qed.

(** *** What GET validates *)

Definition unreadable (nd : node) : Prop :=
  match nd with
  | File true _ _ => False
  | _ => True
  end.

Lemma GET_of_unreadable_source_answer
    (w : host) (command h p q : string) (rest : list (result string)) (nd : node) :
  inbox w = Ok command :: rest →
  args_of command = [h; p; q] →
  Str.upper h = "GET" →
  faults w = [] →
  p ≠ "" →
  fs w !! abspath p = Some nd →
  unreadable nd →
  exec iteration w
  = (Uncaught OSError,
     log (EvOpen p ModeR false)
         (sent "VALID" (log (EvExists p true) (received 1024 command w)))).
Proof.
  intros Hin Hargs Hh Hok Hp Hnd Hun. unfold args_of in Hargs.
  rewrite (exec_iteration w command rest Hin).
  rewrite (handle_GET _ h); [|by rewrite Hargs|done].
  unfold Server.get. rewrite Hargs. cbn.
  rewrite exec_exists. cbn. rewrite (fs_exists_found abspath _ p _ nd Hp eq_refl Hnd). cbn.
  rewrite exec_send_ok by send_ok. cbn.
  rewrite (exec_open_failed _ _ _ _ _ _ _ OSError); [reflexivity|].
  unfold fs_open. cbn. rewrite (is_empty_false p Hp), Hnd.
  destruct nd as [[|] ? ?|?]; done.
Qed.

(** C3 (the code departs from it): [exists] is the whole check.  A
    source that exists and cannot be read (no read permission, or a
    directory) is answered VALID; the [open] that follows raises an
    [OSError] that no clause of the loop catches, so the transfer of an
    accepted GET does fail for lack of read access. *)
Theorem GET_of_unreadable_source_is_answered_VALID
    (w : host) (command h p q : string) (rest : list (result string)) (nd : node) :
  inbox w = Ok command :: rest →
  args_of command = [h; p; q] →
  Str.upper h = "GET" →
  faults w = [] →
  p ≠ "" →
  fs w !! abspath p = Some nd →
  unreadable nd →
  fst (exec iteration w) = Uncaught OSError
  ∧ trace (snd (exec iteration w))
    = trace w ++ [EvReceived (Str.take 1024 command); EvExists p true;
                  EvSent "VALID"; EvOpen p ModeR false]
  ∧ outbox (snd (exec iteration w)) = outbox w ++ ["VALID"].
Proof.
  intros Hin Hargs Hh Hok Hp Hnd Hun.
  rewrite (GET_of_unreadable_source_answer w command h p q rest nd); try done.
  cbn. rewrite <- !app_assoc. done.
Qed.

(** A source that does not exist (the empty path never does) is answered
    INVALID. *)
Lemma GET_of_missing_source
    (w : host) (command h p q : string) (rest : list (result string)) :
  inbox w = Ok command :: rest →
  args_of command = [h; p; q] →
  Str.upper h = "GET" →
  faults w = [] →
  fs_exists abspath (fs w) p = false →
  exec iteration w
  = (Done Continue, sent "INVALID" (log (EvExists p false) (received 1024 command w))).
Proof.
  intros Hin Hargs Hh Hok Hnd. unfold args_of in Hargs.
  rewrite (exec_iteration w command rest Hin).
  rewrite (handle_GET _ h); [|by rewrite Hargs|done].
  unfold Server.get. rewrite Hargs. cbn.
  rewrite exec_exists. cbn. rewrite Hnd. cbn.
  rewrite exec_send_ok by send_ok. reflexivity.
Qed.

(** A readable source is answered VALID and the first 4096 characters of
    its text are sent, or the NUL character when it is empty. *)
Lemma GET_of_readable_source
    (w : host) (command h p q : string) (rest : list (result string))
    (wr : bool) (content : string) :
  inbox w = Ok command :: rest →
  args_of command = [h; p; q] →
  Str.upper h = "GET" →
  faults w = [] →
  p ≠ "" →
  fs w !! abspath p = Some (File true wr content) →
  exec iteration w
  = (Done Continue,
     sent (if Str.is_empty (Str.take 4096 (Str.universal_newlines content)) then Str.NUL
           else Str.take 4096 (Str.universal_newlines content))
          (log (EvRead p)
               (log (EvOpen p ModeR true)
                    (sent "VALID" (log (EvExists p true) (received 1024 command w)))))).
Proof.
  intros Hin Hargs Hh Hok Hp Hnd. unfold args_of in Hargs.
  rewrite (exec_iteration w command rest Hin).
  rewrite (handle_GET _ h); [|by rewrite Hargs|done].
  unfold Server.get. rewrite Hargs. cbn.
  rewrite exec_exists. cbn. rewrite (fs_exists_found abspath _ p _ _ Hp eq_refl Hnd). cbn.
  rewrite exec_send_ok by send_ok. cbn.
  rewrite (exec_open_ok _ _ _ _ _ _ _ (fs w))
    by (cbn; exact (fs_open_to_read abspath dirname _ p _ wr content Hp eq_refl Hnd)).
  cbn. rewrite exec_read. unfold fs_read at 1 2. cbn. rewrite Hnd.
  destruct (Str.is_empty (Str.take 4096 (Str.universal_newlines content))) eqn:E; cbn;
    rewrite exec_send_ok by send_ok; cbn.
  - destruct w; reflexivity.
  - destruct w; reflexivity.
Qed.

(** X11: what the code does answer to a GET: VALID exactly when there are
    two arguments and the source exists, readable or not. *)
Lemma GET_is_answered_VALID_iff_source_exists
    (w : host) (command h : string) (rest : list (result string)) :
  inbox w = Ok command :: rest →
  args_of command !! 0%nat = Some h →
  Str.upper h = "GET" →
  faults w = [] →
  trace w = [] →
  EvSent "VALID" ∈ trace (snd (exec iteration w)) ↔
  length (args_of command) = 3%nat ∧
  ∃ p, args_of command !! 1%nat = Some p ∧ fs_exists abspath (fs w) p = true.
Proof.
  intros Hin Hh0 Hh Hok Htr.
  destruct (decide (length (args_of command) = 3%nat)) as [Hlen|Hlen].
  - destruct (args_of command) as [|h' [|p [|q [|]]]] eqn:Hargs; try discriminate.
    cbn in Hh0. injection Hh0 as ->.
    destruct (fs_exists abspath (fs w) p) eqn:Hex.
    + split; [intros _; split; [done|]; exists p; split; done|intros _].
      destruct (fs_exists_true abspath _ _ Hex) as [Hp [nd Hnd]].
      destruct nd as [[|] wr content|mode].
      * rewrite (GET_of_readable_source w command h p q rest wr content); try done.
        cbn. rewrite Htr. cbn. rewrite !elem_of_cons. auto.
      * rewrite (GET_of_unreadable_source_answer w command h p q rest (File false wr content));
          try done.
        cbn. rewrite Htr. cbn. rewrite !elem_of_cons. auto.
      * rewrite (GET_of_unreadable_source_answer w command h p q rest (Dir mode));
          try done.
        cbn. rewrite Htr. cbn. rewrite !elem_of_cons. auto.
    + rewrite (GET_of_missing_source w command h p q rest); try done.
      cbn. rewrite Htr. cbn. split.
      * rewrite !elem_of_cons, elem_of_nil. intros [?|[?|[?|[]]]]; discriminate.
      * intros (_ & p' & Hp' & Hex'). cbn in Hp'. injection Hp' as <-.
        rewrite Hex in Hex'. discriminate.
  - rewrite (GET_PUT_wrong_arity w command h rest); try done; [|by left].
    cbn. rewrite Htr. cbn. split; [|intros [? _]; done].
    rewrite !elem_of_cons, elem_of_nil. intros [?|[?|[]]]; discriminate.
Qed.

(** *** The listing *)

(** The names [listdir] returns are those of the entries of the
    directory, all of them and nothing else. *)
Lemma fs_listdir_spec (m : gmap string node) (d x : string) :
  x ∈ fs_listdir abspath dirname basename m d ↔
  ∃ k, is_Some (m !! k) ∧ dirname k = abspath d ∧ k ≠ abspath d ∧ basename k = x.
Proof.
  unfold fs_listdir. rewrite list_elem_of_fmap. split.
  - intros (k & -> & Hk). apply list_elem_of_filter in Hk as [[Hd Hne] Hk].
    apply list_elem_of_fmap in Hk as ([k' nd] & -> & Hk).
    apply elem_of_map_to_list in Hk. exists k'. cbn in *. eauto.
  - intros (k & [nd Hk] & Hd & Hne & <-). exists k. split; [done|].
    apply list_elem_of_filter. split; [done|].
    apply list_elem_of_fmap. exists (k, nd). split; [done|].
    by apply elem_of_map_to_list.
Qed.

(** C8: an accepted [LS server] is answered VALID and then the payload
    sent is the newline-join of the list [listdir] returns for the
    working directory as it is at that moment.  The names in that list are
    exactly the names of the entries of the working directory, and the
    payload holds them all: cut at the newlines it gives the list back
    (when no name holds a newline itself).  An empty directory gives the
    empty payload, which adds nothing to what goes out after VALID. *)
Theorem LS_server_sends_the_listing
    (w : host) (command h : string) (rest : list (result string)) :
  inbox w = Ok command :: rest →
  args_of command = [h; "server"] →
  Str.upper h = "LS" →
  faults w = [] →
  let names := fs_listdir abspath dirname basename (fs w) curdir in
  let newline := ascii_of_nat 10 in
  exec iteration w
  = (Done Continue,
     sent (Str.join NL names)
          (log (EvListdir curdir) (sent "VALID" (received 1024 command w))))
  ∧ (∀ x, x ∈ names ↔
          ∃ k, is_Some (fs w !! k) ∧ dirname k = abspath curdir ∧
               k ≠ abspath curdir ∧ basename k = x)
  ∧ (names ≠ [] →
     Forall (λ x, Str.has_char newline x = false) names →
     Str.split_on newline (Str.join NL names) = names)
  ∧ (names = [] →
     Str.join NL names = "" ∧ outbox (snd (exec iteration w)) = outbox w ++ ["VALID"]).
Proof.
  intros Hin Hargs Hh Hok names newline. unfold args_of in Hargs.
  assert (exec iteration w
          = (Done Continue,
             sent (Str.join NL names)
               (log (EvListdir curdir) (sent "VALID" (received 1024 command w))))) as Hrun.
  { rewrite (exec_iteration w command rest Hin).
    rewrite (handle_LS _ h); [|by rewrite Hargs|done].
    unfold Server.ls. rewrite Hargs. cbn.
    rewrite exec_send_ok by send_ok. cbn.
    rewrite exec_listdir. cbn.
    rewrite exec_send_ok by send_ok. reflexivity. }
  split; [exact Hrun|]. split; [intros x; apply fs_listdir_spec|]. split.
  - intros Hne Hnl. by apply split_on_join.
  - intros Hnil. rewrite Hrun, Hnil. done.
Qed.

(** *** What PUT writes *)


(** *** How a session ends *)

(** A [recv] that raises [ConnectionError] ends the session as it
    should: the socket is closed and the address leaves [clients]. *)
Lemma read_error_ends_the_session
    (w : host) (rest : list (result string)) (n : nat) (addr : address) :
  inbox w = Err ConnectionError :: rest →
  addr ∈ clients w →
  exec (handle_client (S n) addr) w
  = (Done true,
     log (EvDel addr true)
         (set_clients (clients w ∖ {[addr]})
            (log EvClose (set_closed true (recv_failed ConnectionError w))))).
Proof.
  intros Hin Haddr. unfold Server.handle_client. rewrite run_bind, exec_loop_S.
  unfold Server.iteration, recv. cbn.
  rewrite (exec_recv_failed _ _ _ _ _ _ ConnectionError rest Hin). cbn.
  rewrite exec_ret. unfold close, del_client. cbn.
  rewrite exec_close. rewrite exec_del by exact Haddr. reflexivity.
Qed.

Lemma exec_handle_client_end_of_stream
    (w : host) (rest : list (result string)) (f : list (option exn))
    (n : nat) (addr : address) :
  inbox w = Ok "" :: rest →
  faults w = Some ConnectionError :: f →
  exec (handle_client (S n) addr) w
  = (Uncaught ConnectionError,
     send_failed "INVALID" ConnectionError (received 1024 "" w)).
Proof.
  intros Hin Hf. unfold Server.handle_client. rewrite run_bind, exec_loop_S.
  rewrite (exec_iteration w "" rest Hin).
  rewrite (handle_unknown _ "") by reflexivity.
  unfold Server.vprint, Server.esend, send. cbn.
  rewrite (exec_send_failed _ _ _ _ _ _ ConnectionError f) by (cbn; exact Hf).
  reflexivity.
Qed.

(** C6 (the code departs from it): the end of the stream is not an
    exception.  [recv] returns the empty string, which is handled as a
    command with an unknown header; the INVALID reply is sent from inside
    the [except] clause, so when that send fails on the closed connection
    its [ConnectionError] is caught by nobody: [handle_client] is left by
    the exception, the socket is not closed and the address is still in
    [clients]. *)
Theorem end_of_stream_leaves_the_session_uncleaned
    (w : host) (rest : list (result string)) (f : list (option exn))
    (n : nat) (addr : address) :
  inbox w = Ok "" :: rest →
  faults w = Some ConnectionError :: f →
  fst (exec (handle_client (S n) addr) w) = Uncaught ConnectionError
  ∧ trace (snd (exec (handle_client (S n) addr) w))
    = trace w ++ [EvReceived ""; EvSendFailed "INVALID" ConnectionError]
  ∧ conn_closed (snd (exec (handle_client (S n) addr) w)) = conn_closed w
  ∧ clients (snd (exec (handle_client (S n) addr) w)) = clients w.
Proof.
  intros Hin Hf.
  rewrite (exec_handle_client_end_of_stream w rest f n addr Hin Hf).
  cbn. rewrite <- app_assoc. done.
Qed.

(** X12: while the sends still go through, the end of the stream keeps the
    loop turning: every turn reads the empty string and answers INVALID,
    and no number of turns ends the session. *)
Lemma end_of_stream_keeps_the_loop_turning (n : nat) (addr : address) :
  ∀ w : host,
    inbox w = replicate n (Ok "") →
    faults w = [] →
    ∃ w', exec (handle_client n addr) w = (Done false, w') ∧
          clients w' = clients w ∧ conn_closed w' = conn_closed w.
Proof.
  unfold Server.handle_client.
  induction n as [|n IH]; intros w Hin Hf.
  - exists w. cbn. rewrite exec_ret. done.
  - cbn in Hin. rewrite run_bind, exec_loop_S.
    rewrite (exec_iteration w "" _ Hin).
    rewrite (handle_unknown _ "") by reflexivity.
    unfold Server.vprint, Server.esend, send. cbn.
    rewrite exec_send_ok by send_ok. cbn. rewrite exec_ret.
    destruct (IH (sent "INVALID" (received 1024 "" w))) as (w' & Hrun & Hc & Hcl).
    + cbn. rewrite Hin. reflexivity.
    + cbn. rewrite Hf. reflexivity.
    + rewrite run_bind in Hrun.
      destruct (exec (Server.loop abspath dirname n) (sent "INVALID" (received 1024 "" w)))
        as [[[]|e|p'] w1] eqn:E; try discriminate.
      * exfalso. unfold close, del_client in Hrun. cbn in Hrun.
        rewrite exec_close in Hrun.
        destruct (decide (addr ∈ clients (log EvClose (set_closed true w1)))) as [Ha|Ha];
          [rewrite exec_del in Hrun by exact Ha
          |rewrite exec_del_missing in Hrun by exact Ha];
          discriminate.
      * rewrite exec_ret in Hrun. injection Hrun as <-. exists w1. done.
Qed.

(** A transport failure that is not a [ConnectionError] (a time-out, an
    unreachable host) is caught by no clause either. *)
Lemma other_transport_failure_escapes
    (w : host) (rest : list (result string)) (n : nat) (addr : address) :
  inbox w = Err OSError :: rest →
  exec (handle_client (S n) addr) w = (Uncaught OSError, recv_failed OSError w).
Proof.
  intros Hin. unfold Server.handle_client. rewrite run_bind, exec_loop_S.
  unfold Server.iteration, recv. cbn.
  rewrite (exec_recv_failed _ _ _ _ _ _ OSError rest Hin). reflexivity.
Qed.

(** *** The registry *)

Lemma iteration_no_cleanup : only_calls no_cleanup iteration.
Proof.
  unfold Server.iteration, Server.on_error, Server.dispatch, Server.get, Server.put,
    Server.ls, Server.vprint, Server.esend, send, recv, path_exists, open, read,
    write, makedirs, listdir.
  only_calls_tac.
Qed.

Lemma loop_no_cleanup (n : nat) : only_calls no_cleanup (Server.loop abspath dirname n).
Proof.
  induction n as [|n IH]; [constructor|].
  change (Server.loop abspath dirname (S n))
    with (c <- iteration ;;
          match c with Continue => Server.loop abspath dirname n | Break => Ret true end).
  apply only_calls_bind; [apply iteration_no_cleanup|]. intros []; [exact IH|constructor].
Qed.

(** X13: whatever the session meets, [handle_client] touches [clients] at
    most once: either the dictionary is as it was, or the function has
    returned and exactly the session's address is gone. *)
Lemma handle_client_removes_at_most_once (n : nat) (addr : address) (w : host) :
  clients (snd (exec (handle_client n addr) w)) = clients w ∨
  (fst (exec (handle_client n addr) w) = Done true ∧
   addr ∈ clients w ∧
   clients (snd (exec (handle_client n addr) w)) = clients w ∖ {[addr]} ∧
   conn_closed (snd (exec (handle_client n addr) w)) = true).
Proof.
  unfold Server.handle_client. rewrite run_bind.
  destruct (run_no_cleanup abspath dirname basename _ w (loop_no_cleanup n)) as [Hc Hcl].
  destruct (exec (Server.loop abspath dirname n) w) as [[[]|e|p'] w1]; cbn in *; auto.
  unfold close, del_client. cbn. rewrite exec_close.
  destruct (decide (addr ∈ clients w)) as [Hin|Hout].
  - right. rewrite exec_del by (cbn; by rewrite Hc). cbn. rewrite Hc. done.
  - left. rewrite exec_del_missing by (cbn; by rewrite Hc). cbn. done.
Qed.

End ServerFacts.

(** ** The order of the calls of one command *)

(** The event a call logs, from the call and its reply. *)
Definition event_of (a : action) : reply a → event :=
  match a as a0 return reply a0 → event with
  | Send m => λ r, match r with Ok _ => EvSent m | Err e => EvSendFailed m e end
  | Recv _ => λ r, match r with Ok m => EvReceived m | Err e => EvRecvFailed e end
  | PathExists p => λ r, EvExists p r
  | Makedirs d _ => λ r, EvMakedirs d (match r with Ok _ => true | Err _ => false end)
  | Open p m => λ r, EvOpen p m (match r with Ok _ => true | Err _ => false end)
  | Read p _ => λ _, EvRead p
  | Write p data => λ _, EvWrite p data
  | Listdir d => λ _, EvListdir d
  | Close => λ _, EvClose
  | DelClient a => λ r, EvDel a (match r with Ok _ => true | Err _ => false end)
  | Input => λ r, EvInput r
  end.

(** [ordered rule mark seen t]: every event of [t] is allowed by [rule],
    which is told whether an event picked by [mark] came before it. *)
Fixpoint ordered (rule : bool → event → bool) (mark : event → bool)
    (seen : bool) (t : list event) : bool :=
  match t with
  | [] => true
  | e :: t' => rule seen e && ordered rule mark (seen || mark e) t'
  end.

(** The same for every path through a program. *)
Inductive well_ordered {R : Type} (rule : bool → event → bool) (mark : event → bool)
  : bool → prog R → Prop :=
| wo_ret seen r : well_ordered rule mark seen (Ret r)
| wo_raise seen e : well_ordered rule mark seen (Raise e)
| wo_vis seen a k :
    (∀ r, rule seen (event_of a r) = true) →
    (∀ r, well_ordered rule mark (seen || mark (event_of a r)) (k r)) →
    well_ordered rule mark seen (Vis a k).

Definition creates_directory (e : event) : bool :=
  match e with
  | EvMakedirs _ _ => true
  | _ => false
  end.

Definition uses_file (e : event) : bool :=
  match e with
  | EvOpen _ _ _ | EvRead _ | EvWrite _ _ => true
  | _ => false
  end.

Definition lists_directory (e : event) : bool :=
  match e with
  | EvListdir _ => true
  | _ => false
  end.

Definition VALID_sent (e : event) : bool :=
  match e with
  | EvSent m => String.eqb m "VALID"
  | _ => false
  end.

Definition VALID_received (e : event) : bool :=
  match e with
  | EvReceived m => String.eqb m "VALID"
  | _ => false
  end.

(** Nothing is done to the file system before VALID. *)
Definition nothing_before_VALID (seen : bool) (e : event) : bool :=
  negb (creates_directory e || uses_file e || lists_directory e) || seen.

(** What the server keeps to: files and listings after VALID, directories
    made before it. *)
Definition server_rule (seen : bool) (e : event) : bool :=
  if creates_directory e then negb seen
  else if uses_file e || lists_directory e then seen
  else true.

(** What the client keeps to: files after VALID, directories made before
    it; its own directory it lists without asking. *)
Definition client_rule (seen : bool) (e : event) : bool :=
  if creates_directory e then negb seen
  else if uses_file e then seen
  else true.

(** A message handed to the socket, whatever its fate, and any use of the
    socket. *)
Definition is_send (e : event) : bool :=
  match e with
  | EvSent _ | EvSendFailed _ _ => true
  | _ => false
  end.

Definition uses_socket (e : event) : bool :=
  match e with
  | EvSent _ | EvSendFailed _ _ | EvReceived _ | EvRecvFailed _ => true
  | _ => false
  end.

(** A directory is made only while nothing has been sent yet (told
    whether a send came before). *)
Definition directories_before_asking (seen : bool) (e : event) : bool :=
  if creates_directory e then negb seen else true.

(** The directory is listed only while the socket has not been used (told
    whether a use of the socket came before)... *)
Definition lists_unasked (seen : bool) (e : event) : bool :=
  if lists_directory e then negb seen else true.

(** ... and the socket is not used once the directory has been listed
    (told whether a listing came before). *)
Definition silent_after_listing (seen : bool) (e : event) : bool :=
  if uses_socket e then negb seen else true.

Section OrderFacts.

Variables abspath dirname basename : string → string.

Local Abbreviation exec := (run abspath dirname basename).
Local Abbreviation perform := (perform abspath dirname basename).

Lemma perform_trace (a : action) (w w' : host) (r : reply a) :
  perform a w = Some (r, w') → trace w' = trace w ++ [event_of a r].
Proof.
  destruct a; cbn; intros H; repeat case_match; simplify_eq; reflexivity.
Qed.

Lemma ordered_snoc (rule : bool → event → bool) (mark : event → bool)
    (t : list event) (e : event) (seen : bool) :
  ordered rule mark seen (t ++ [e])
  = ordered rule mark seen t && rule (seen || existsb mark t) e.
Proof.
  revert seen. induction t as [|x t IH]; intros seen; cbn.
  - by rewrite orb_false_r, andb_true_r.
  - rewrite IH. by rewrite andb_assoc, orb_assoc.
Qed.

Lemma run_well_ordered {R : Type} (rule : bool → event → bool) (mark : event → bool)
    (seen : bool) (p : prog R) :
  well_ordered rule mark seen p →
  ∀ w, ordered rule mark false (trace w) = true →
       existsb mark (trace w) = seen →
       ordered rule mark false (trace (snd (exec p w))) = true.
Proof.
  induction 1 as [seen r|seen e|seen a k Hrule Hk IH]; intros w Hord Hseen;
    try (cbn; exact Hord).
  unfold run; fold (@run abspath dirname basename R).
  destruct (perform a w) as [[r w']|] eqn:E; [|exact Hord].
  pose proof (perform_trace a w w' r E) as Htr.
  apply (IH r).
  - rewrite Htr, ordered_snoc, Hord, Hseen. apply Hrule.
  - rewrite Htr, existsb_app, Hseen. cbn. by rewrite orb_false_r.
Qed.

End OrderFacts.

(** Walks every path of a program, splitting on each reply and on each
    test. *)
Ltac well_ordered_tac :=
  repeat (cbn;
          first [ apply wo_ret
                | apply wo_raise
                | apply wo_vis; [intros []; reflexivity | intros ?]
                | apply wo_vis; [intros ?; reflexivity | intros ?]
                | case_match ]).

Section CommandOrder.

Variables abspath dirname basename : string → string.

Local Abbreviation exec := (run abspath dirname basename).

Lemma server_iteration_well_ordered :
  well_ordered server_rule VALID_sent false (Server.iteration abspath dirname).
Proof.
  unfold Server.iteration, Server.on_error, Server.dispatch, Server.get, Server.put,
    Server.ls, Server.vprint, Server.esend, OSError_to_invalid, index,
    send, recv, path_exists, open, read, write, makedirs, listdir, call_result.
  well_ordered_tac.
Qed.

Lemma client_execute_well_ordered (command : string) :
  well_ordered client_rule VALID_received false (Client.execute abspath dirname command).
Proof.
  unfold Client.execute, Client.on_error, Client.dispatch, Client.get, Client.put, Client.ls,
    Client.valid_command, OSError_to_invalid, index,
    send, recv, path_exists, open, read, write, makedirs, listdir, call_result.
  well_ordered_tac.
Qed.

Ltac unfold_client :=
  unfold Client.execute, Client.on_error, Client.dispatch, Client.get, Client.put, Client.ls,
    Client.valid_command, OSError_to_invalid, index,
    send, recv, path_exists, open, read, write, makedirs, listdir, call_result.

Lemma client_execute_makes_directories_first (command : string) :
  well_ordered directories_before_asking is_send false
    (Client.execute abspath dirname command).
Proof. unfold_client. well_ordered_tac. Qed.

Lemma client_execute_lists_unasked (command : string) :
  well_ordered lists_unasked uses_socket false (Client.execute abspath dirname command).
Proof. unfold_client. well_ordered_tac. Qed.

Lemma client_execute_silent_after_listing (command : string) :
  well_ordered silent_after_listing lists_directory false
    (Client.execute abspath dirname command).
Proof. unfold_client. well_ordered_tac. Qed.

(** C1 (as amended): in the handling of one command, the server opens,
    reads, writes a file or lists the directory only after it has sent
    VALID, and the client opens, reads or writes a file only after it has
    received VALID.  A directory that is missing is made before the reply,
    never after it: by the server before it sends VALID, and by the client
    before it has sent anything, the command included.  When the client
    lists its own directory it has not used the socket, and it does not use
    it afterwards: the listing takes place without any exchange. *)
Theorem files_after_VALID_directories_before
    (ws wc : host) (command : string) :
  trace ws = [] →
  trace wc = [] →
  ordered server_rule VALID_sent false
    (trace (snd (exec (Server.iteration abspath dirname) ws))) = true
  ∧ ordered client_rule VALID_received false
      (trace (snd (exec (Client.execute abspath dirname command) wc))) = true
  ∧ ordered directories_before_asking is_send false
      (trace (snd (exec (Client.execute abspath dirname command) wc))) = true
  ∧ ordered lists_unasked uses_socket false
      (trace (snd (exec (Client.execute abspath dirname command) wc))) = true
  ∧ ordered silent_after_listing lists_directory false
      (trace (snd (exec (Client.execute abspath dirname command) wc))) = true.
Proof.
  intros Hs Hc.
  split; [|repeat split];
    apply (run_well_ordered abspath dirname basename _ _ false);
    first [ by rewrite Hs | by rewrite Hc | idtac ].
  - apply server_iteration_well_ordered.
  - apply client_execute_well_ordered.
  - apply client_execute_makes_directories_first.
  - apply client_execute_lists_unasked.
  - apply client_execute_silent_after_listing.
Qed.

End CommandOrder.

(** ** The listener *)

Section ListenerFacts.

Variables abspath dirname basename : string → string.

Local Abbreviation exec := (run abspath dirname basename).
Local Abbreviation handle_client := (Server.handle_client abspath dirname).
Local Abbreviation step := (main_step abspath dirname basename).
Local Abbreviation serve := (main abspath dirname basename).

(** The host on which the thread of a connection starts. *)
Definition registered (c : connection) (w : host) : host :=
  set_clients ({[peer c]} ∪ clients (accept c w)) (accept c w).

(** The address is in [clients] when the handler starts. *)
Lemma registered_before_the_handler_starts
    (n : nat) (when : join_lookup) (w : host) (c : connection) :
  snd (step n when w c) = snd (exec (handle_client n (peer c)) (registered c w))
  ∧ peer c ∈ clients (registered c w).
Proof.
  split.
  - unfold main_step. destruct when; [reflexivity|]. by case_decide.
  - cbn. apply elem_of_union_l, elem_of_singleton. reflexivity.
Qed.

(** A session that ends on a read error leaves no entry. *)
Lemma entry_removed_after_read_error
    (n : nat) (when : join_lookup) (w : host) (c : connection)
    (rest : list (result string)) :
  incoming c = Err ConnectionError :: rest →
  peer c ∉ clients (snd (step (S n) when w c)).
Proof.
  intros Hin.
  rewrite (proj1 (registered_before_the_handler_starts (S n) when w c)).
  rewrite (read_error_ends_the_session abspath dirname basename _ rest).
  - cbn. rewrite elem_of_difference, elem_of_singleton. tauto.
  - cbn. exact Hin.
  - cbn. apply elem_of_union_l, elem_of_singleton. reflexivity.
Qed.

(** The listener goes on to the next connection when the turn of the one
    before raised nothing. *)
Lemma main_goes_on (n : nat) (conns : list (connection * join_lookup))
    (c : connection) (when : join_lookup) (w : host) :
  fst (step n when w c) = Done tt →
  serve n ((c, when) :: conns) w = serve n conns (snd (step n when w c)).
Proof. intros H. cbn. destruct (step n when w c) as [[[]|e|p'] w']; done. Qed.

(** C7 (the code departs from it): the entry is removed by the statement
    after the loop, which only a [break] reaches.  When an exception leaves
    the handler (here the [IndexError] of a command that is [LS] alone) the
    thread ends, the accept loop goes on whenever its look-up takes place,
    and the address stays in [clients]. *)
Theorem entry_stays_after_uncaught_exception
    (n : nat) (when : join_lookup) (w : host) (c : connection) (command h : string)
    (rest : list (result string)) :
  incoming c = Ok command :: rest →
  args_of command = [h] →
  Str.upper h = "LS" →
  peer c ∈ clients (snd (step (S n) when w c))
  ∧ fst (step (S n) when w c) = Done tt.
Proof.
  intros Hin Hargs Hh. unfold main_step.
  rewrite (exec_handle_client_LS_alone abspath dirname basename _ command h rest);
    [|exact Hin|exact Hargs|exact Hh].
  cbn.
  assert (peer c ∈ ({[peer c]} ∪ clients w : gset address)) as Hc
    by (apply elem_of_union_l, elem_of_singleton; reflexivity).
  destruct when; [done|]. by case_decide.
Qed.

End ListenerFacts.

(** ** A client and a server together *)

Lemma split_on_nonempty (sep : ascii) (s : string) (x y : string) (l : list string) :
  Str.split_on sep s = x :: y :: l → Str.is_empty s = false.
Proof. destruct s; [discriminate | reflexivity]. Qed.

Lemma split_on_not_quit (x y : string) (l : list string) (s : string) :
  Str.split_on " " s = x :: y :: l → String.eqb s "quit" = false.
Proof.
  intros H. apply String.eqb_neq. intros ->. vm_compute in H. discriminate.
Qed.

Section ExchangeFacts.

Variables abspath dirname basename : string → string.

Hypothesis abspath_not_empty : ∀ p, abspath p ≠ "".
Hypothesis dirname_not_empty : ∀ p, dirname (abspath p) ≠ "".

Local Abbreviation exec := (run abspath dirname basename).
Local Abbreviation talk := (exchange abspath dirname basename).



Lemma execute_GET (command h : string) :
  Str.split_on " " command !! 0%nat = Some h → Str.upper h = "GET" →
  Client.execute abspath dirname command =
  catch (Client.get abspath dirname command (Str.split_on " " command) ;; Ret Continue)
        Client.on_error.
Proof.
  intros E Hh. unfold Client.execute, index. rewrite E. cbn. rewrite Hh. reflexivity.
Qed.

Lemma execute_PUT (command h : string) :
  Str.split_on " " command !! 0%nat = Some h → Str.upper h = "PUT" →
  Client.execute abspath dirname command =
  catch (Client.put abspath command (Str.split_on " " command) ;; Ret Continue)
        Client.on_error.
Proof.
  intros E Hh. unfold Client.execute, index. rewrite E. cbn. rewrite Hh. reflexivity.
Qed.





End ExchangeFacts.

(** * More of the two programs *)

(** ** Strings, again *)

(** The number of times [c] stands in [s]. *)
Fixpoint count_char (c : ascii) (s : string) : nat :=
  match s with
  | EmptyString => 0
  | String c' s' => (if Ascii.eqb c' c then 1 else 0) + count_char c s'
  end.

Lemma split_on_cons (sep : ascii) (s : string) :
  ∃ x l, Str.split_on sep s = x :: l.
Proof.
  induction s as [|c s (x & l & IH)]; [by exists "", []|].
  change (Str.split_on sep (String c s))
    with (if Ascii.eqb c sep then EmptyString :: Str.split_on sep s
          else match Str.split_on sep s with
               | w :: ws => String c w :: ws
               | [] => [String c EmptyString]
               end).
  rewrite IH. destruct (Ascii.eqb c sep); eauto.
Qed.

(** [s.split(sep)] has one piece more than [s] has separators. *)
Lemma length_split_on (sep : ascii) (s : string) :
  length (Str.split_on sep s) = S (count_char sep s).
Proof.
  induction s as [|c s IH]; [reflexivity|].
  change (Str.split_on sep (String c s))
    with (if Ascii.eqb c sep then EmptyString :: Str.split_on sep s
          else match Str.split_on sep s with
               | w :: ws => String c w :: ws
               | [] => [String c EmptyString]
               end).
  cbn [count_char]. destruct (split_on_cons sep s) as (x & l & Hs).
  rewrite Hs in *. destruct (Ascii.eqb c sep); cbn in *; lia.
Qed.


(** Every program makes only calls, whatever they are. *)
Lemma only_calls_any {R : Type} (p : prog R) : only_calls (λ _, true) p.
Proof. induction p; constructor; auto. Qed.


(** ** The server: refusals *)

Section ServerRefusals.

Variables abspath dirname basename : string → string.

Local Abbreviation exec := (run abspath dirname basename).
Local Abbreviation iteration := (Server.iteration abspath dirname).
Local Abbreviation handle_client := (Server.handle_client abspath dirname).

(** X1: a command line whose first word, in upper case, is none of GET,
    PUT and LS (the empty line that the end of the stream gives included)
    is answered INVALID; nothing else happens and the loop goes on. *)
Theorem unknown_header_is_answered_INVALID
    (w : host) (command hd : string) (rest : list (result string)) :
  inbox w = Ok command :: rest →
  header_of command = Some hd →
  mem hd Server.valid_headers = false →
  faults w = [] →
  exec iteration w = (Done Continue, sent "INVALID" (received 1024 command w)).
Proof.
  intros Hin Hhd Hmem Hf. unfold header_of, args_of in Hhd.
  destruct (Str.split_on " " (Str.take 1024 command) !! 0%nat) as [h|] eqn:E; [|done].
  injection Hhd as <-.
  rewrite (exec_iteration abspath dirname basename w command rest Hin).
  rewrite (handle_unknown abspath dirname _ h E Hmem).
  unfold Server.vprint, Server.esend, send. cbn.
  rewrite exec_send_ok by (unfold next_send_ok; cbn; by rewrite Hf).
  reflexivity.
Qed.

(** X2: the arguments are the pieces between single spaces, so whether
    a GET or a PUT line passes the test of its length depends on nothing
    but the number of spaces in it (in its first 1024 characters): with
    two spaces it passes, empty pieces or not; with any other number the
    command is answered INVALID and the loop goes on. *)
Theorem GET_PUT_need_exactly_two_spaces
    (w : host) (command hd : string) (rest : list (result string)) :
  inbox w = Ok command :: rest →
  header_of command = Some hd →
  hd = "GET" ∨ hd = "PUT" →
  faults w = [] →
  (length (args_of command) = 3%nat ↔ count_char " " (Str.take 1024 command) = 2%nat)
  ∧ (count_char " " (Str.take 1024 command) ≠ 2%nat →
     exec iteration w = (Done Continue, sent "INVALID" (received 1024 command w))).
Proof.
  intros Hin Hhd Hh Hf. unfold header_of in Hhd.
  destruct (args_of command !! 0%nat) as [h|] eqn:E; [|done].
  injection Hhd as Hhd.
  assert (length (args_of command) = S (count_char " " (Str.take 1024 command))) as Hlen
    by (unfold args_of; apply length_split_on).
  split; [lia|]. intros Hsp.
  apply (GET_PUT_wrong_arity abspath dirname basename w command h rest); try done.
  - destruct Hh as [->| ->]; auto.
  - lia.
Qed.

End ServerRefusals.


(** ** The server: what a command may touch *)

(** Calls that neither change the file system nor read from the socket. *)
Definition looks_only (a : action) : bool :=
  match a with
  | Recv _ => false
  | _ => reads_only a
  end.

Section ServerFrame.

Variables abspath dirname basename : string → string.

Local Abbreviation exec := (run abspath dirname basename).
Local Abbreviation iteration := (Server.iteration abspath dirname).
Local Abbreviation handle_client := (Server.handle_client abspath dirname).

Lemma perform_looks_only (a : action) (w w' : host) (r : reply a) :
  looks_only a = true → perform abspath dirname basename a w = Some (r, w') →
  fs w' = fs w ∧ inbox w' = inbox w.
Proof.
  destruct a; cbn; try discriminate; intros Hs H;
    try (apply bool_decide_eq_true in Hs; subst; unfold fs_open in *; cbn in * );
    repeat case_match; simplify_eq; cbn; eauto.
Qed.

Lemma run_looks_only {R : Type} (p : prog R) (w : host) :
  only_calls looks_only p →
  fs (snd (exec p w)) = fs w ∧ inbox (snd (exec p w)) = inbox w.
Proof.
  intros Hp.
  apply (run_invariant abspath dirname basename looks_only
           (λ w', fs w' = fs w ∧ inbox w' = inbox w)); auto.
  intros a w1 r w2 Ha [Hfs Hin] Hperf.
  destruct (perform_looks_only a w1 w2 r Ha Hperf). split; congruence.
Qed.

Lemma not_PUT_looks_only (command h : string) :
  Str.split_on " " command !! 0%nat = Some h →
  Str.upper h ≠ "PUT" →
  only_calls looks_only (handle abspath dirname command).
Proof.
  intros E Hh.
  destruct (mem (Str.upper h) Server.valid_headers) eqn:Hmem.
  - cbn in Hmem.
    destruct (String.eqb_spec (Str.upper h) "GET") as [Hg|_].
    { rewrite (handle_GET abspath dirname _ h E Hg).
      unfold Server.get, Server.on_error, Server.vprint, Server.esend,
        send, path_exists, open, read.
      only_calls_tac. }
    destruct (String.eqb_spec (Str.upper h) "PUT") as [Hp|_]; [done|].
    destruct (String.eqb_spec (Str.upper h) "LS") as [Hl|_]; [|done].
    rewrite (handle_LS abspath dirname _ h E Hl).
    unfold Server.ls, Server.on_error, Server.vprint, Server.esend, send, listdir.
    only_calls_tac.
  - rewrite (handle_unknown abspath dirname _ h E Hmem).
    unfold Server.vprint, Server.esend, send. only_calls_tac.
Qed.

(** X3: only PUT writes and only PUT reads a second message.  Whatever
    the outcome, the handling of a command whose header is not PUT leaves
    the server's file system as it was and takes nothing from the socket
    beyond the command line itself (its first 1024 characters). *)
Theorem only_PUT_writes_or_reads_a_payload
    (w : host) (command hd : string) (rest : list (result string)) :
  inbox w = Ok command :: rest →
  header_of command = Some hd →
  hd ≠ "PUT" →
  fs (snd (exec iteration w)) = fs w
  ∧ inbox (snd (exec iteration w)) = inbox (received 1024 command w).
Proof.
  intros Hin Hhd Hh. unfold header_of, args_of in Hhd.
  destruct (Str.split_on " " (Str.take 1024 command) !! 0%nat) as [h|] eqn:E; [|done].
  injection Hhd as <-.
  rewrite (exec_iteration abspath dirname basename w command rest Hin).
  destruct (run_looks_only (handle abspath dirname (Str.take 1024 command))
              (received 1024 command w) (not_PUT_looks_only _ h E Hh)) as [Hfs Hib].
  split; [rewrite Hfs; reflexivity | exact Hib].
Qed.

End ServerFrame.


(** ** The server: transfers and their failures *)

Section ServerTransfers.

Variables abspath dirname basename : string → string.

Hypothesis abspath_not_empty : ∀ p, abspath p ≠ "".
Hypothesis dirname_not_empty : ∀ p, dirname (abspath p) ≠ "".

Local Abbreviation exec := (run abspath dirname basename).
Local Abbreviation iteration := (Server.iteration abspath dirname).
Local Abbreviation handle_client := (Server.handle_client abspath dirname).

Lemma exec_makedirs_ok {R : Type} (d : string) (mode : Z) (k : result unit → prog R)
    (w : host) (m' : gmap string node) :
  fs_makedirs abspath dirname (fs w) d mode = Ok m' →
  exec (Vis (Makedirs d mode) k) w = exec (k (Ok tt)) (log (EvMakedirs d true) (set_fs m' w)).
Proof. intros H. unfold run; fold (@run abspath dirname basename R). cbn. by rewrite H. Qed.

Lemma exec_makedirs_failed {R : Type} (d : string) (mode : Z) (k : result unit → prog R)
    (w : host) (e : exn) :
  fs_makedirs abspath dirname (fs w) d mode = Err e →
  exec (Vis (Makedirs d mode) k) w = exec (k (Err e)) (log (EvMakedirs d false) w).
Proof. intros H. unfold run; fold (@run abspath dirname basename R). cbn. by rewrite H. Qed.

Lemma mkdirs_in_a_directory (fuel : nat) (m : gmap string node) (d : string) (mode x : Z) :
  m !! d = None → m !! dirname d = Some (Dir x) → dir_writable x = true →
  mkdirs dirname fuel m d mode = Ok (<[d := Dir mode]> m).
Proof. intros Hd Hp Hx. destruct fuel; cbn; by rewrite Hd, Hp, Hx. Qed.

Lemma mkdirs_under_a_file (fuel : nat) (m : gmap string node) (d : string) (mode : Z)
    (r wr : bool) (c : string) :
  m !! d = None → m !! dirname d = Some (File r wr c) →
  mkdirs dirname fuel m d mode = Err OSError.
Proof. intros Hd Hp. destruct fuel; cbn; by rewrite Hd, Hp. Qed.

(** [makedirs] of the path [d], resolved to [k]. *)
Lemma fs_makedirs_in_a_directory (m : gmap string node) (d k : string) (mode x : Z) :
  d ≠ "" → abspath d = k → m !! k = None → m !! dirname k = Some (Dir x) →
  dir_writable x = true →
  fs_makedirs abspath dirname m d mode = Ok (<[k := Dir mode]> m).
Proof.
  intros Hd <- Hk Hp Hx. unfold fs_makedirs. rewrite (is_empty_false d Hd).
  by eapply mkdirs_in_a_directory.
Qed.

Lemma fs_makedirs_under_a_file (m : gmap string node) (d k : string) (mode : Z)
    (r wr : bool) (c : string) :
  abspath d = k → m !! k = None → m !! dirname k = Some (File r wr c) →
  fs_makedirs abspath dirname m d mode = Err OSError.
Proof.
  intros <- Hk Hp. unfold fs_makedirs. destruct (Str.is_empty d); [done|].
  by eapply mkdirs_under_a_file.
Qed.

Lemma mkdirs_keeps (fuel : nat) (m m' : gmap string node) (d k : string) (mode : Z)
    (nd : node) :
  m !! k = Some nd → mkdirs dirname fuel m d mode = Ok m' → m' !! k = Some nd.
Proof.
  revert d mode m'. induction fuel as [|fuel IH]; intros d mode m' Hk H; cbn in H.
  - destruct (m !! d) eqn:Hd; [discriminate|].
    destruct (m !! dirname d) as [[? ? ?|dm]|]; try discriminate.
    destruct (dir_writable dm); [|discriminate].
    injection H as <-. rewrite lookup_insert_ne; [done|congruence].
  - destruct (m !! d) eqn:Hd; [discriminate|].
    destruct (m !! dirname d) as [[? ? ?|dm]|]; try discriminate.
    + destruct (dir_writable dm); [|discriminate].
      injection H as <-. rewrite lookup_insert_ne; [done|congruence].
    + destruct (mkdirs dirname fuel m (dirname d) 511) as [m1|] eqn:Hrec; [|discriminate].
      injection H as <-. rewrite lookup_insert_ne; [by eapply IH|congruence].
Qed.

(** No call replaces or removes a directory. *)
Lemma perform_keeps_directories (a : action) (w w' : host) (r : reply a)
    (k : string) (x : Z) :
  fs w !! k = Some (Dir x) →
  perform abspath dirname basename a w = Some (r, w') →
  fs w' !! k = Some (Dir x).
Proof.
  intros Hk. destruct a; cbn; intros H; repeat case_match; simplify_eq; cbn; try done.
  - match goal with H : fs_makedirs _ _ _ _ _ = Ok _ |- _ => unfold fs_makedirs in H end.
    case_match; [done|]. eapply mkdirs_keeps; eauto.
  - match goal with H : fs_open _ _ _ _ _ = Ok _ |- _ => unfold fs_open in H end.
    repeat case_match; simplify_eq; try done;
      (rewrite lookup_insert_ne; [done|congruence]).
  - unfold fs_write. repeat case_match; try done.
    rewrite lookup_insert_ne; [done|congruence].
Qed.

Lemma run_keeps_directories {R : Type} (p : prog R) (w : host) (k : string) (x : Z) :
  fs w !! k = Some (Dir x) → fs (snd (exec p w)) !! k = Some (Dir x).
Proof.
  intros Hk.
  apply (run_invariant abspath dirname basename (λ _, true)
           (λ w', fs w' !! k = Some (Dir x))); auto using only_calls_any.
  intros a w1 r w2 _ H1 Hperf. eapply perform_keeps_directories; eauto.
Qed.

(** The log only grows. *)
Lemma run_extends_the_trace {R : Type} (p : prog R) (w : host) :
  ∃ t, trace (snd (exec p w)) = trace w ++ t.
Proof.
  revert w. induction p as [r|e|a k IH]; intros w; try (exists []; cbn; by rewrite app_nil_r).
  unfold run; fold (@run abspath dirname basename R).
  destruct (perform abspath dirname basename a w) as [[r w']|] eqn:E;
    [|exists []; cbn; by rewrite app_nil_r].
  destruct (IH r w') as [t Ht]. rewrite (perform_trace abspath dirname basename a w w' r E) in Ht.
  exists (event_of a r :: t). rewrite Ht, <- app_assoc. reflexivity.
Qed.

(** X4: a GET of a readable file is answered VALID and then exactly one
    message is sent: the first 4096 characters of the file's text, or the
    single NUL character when the text is empty; the loop goes on and no
    file has changed. *)
Theorem GET_sends_the_first_chunk
    (w : host) (command h p q : string) (rest : list (result string))
    (wr : bool) (content : string) :
  inbox w = Ok command :: rest →
  args_of command = [h; p; q] →
  Str.upper h = "GET" →
  faults w = [] →
  p ≠ "" →
  fs w !! abspath p = Some (File true wr content) →
  let chunk := Str.take 4096 (Str.universal_newlines content) in
  fst (exec iteration w) = Done Continue
  ∧ outbox (snd (exec iteration w))
    = outbox w ++ ["VALID"; if Str.is_empty chunk then Str.NUL else chunk]
  ∧ fs (snd (exec iteration w)) = fs w.
Proof.
  intros Hin Hargs Hh Hf Hp0 Hp chunk.
  rewrite (GET_of_readable_source abspath dirname basename w command h p q rest wr content);
    try done.
  fold chunk. cbn. rewrite <- app_assoc. cbn.
  destruct (Str.is_empty chunk) eqn:E; cbn; [done|by rewrite E].
Qed.

(** X5: a PUT whose destination does not exist yet, in a directory that
    does and in which the owner may create entries, creates the file with
    what it received (the first 4096 characters of the message); nothing
    else changes. *)
Theorem PUT_creates_a_new_file
    (w : host) (command h src p data : string) (rest : list (result string)) (mode : Z) :
  inbox w = Ok command :: Ok data :: rest →
  (Str.len command ≤ 1024)%N →
  args_of command = [h; src; p] →
  Str.upper h = "PUT" →
  faults w = [] →
  abspath (abspath p) = abspath p →
  abspath (dirname (abspath p)) = dirname (abspath p) →
  fs w !! abspath p = None →
  fs w !! dirname (abspath p) = Some (Dir mode) →
  dir_writable mode = true →
  fst (exec iteration w) = Done Continue
  ∧ fs (snd (exec iteration w)) = <[abspath p := File true true (Str.take 4096 data)]> (fs w).
Proof.
  intros Hin Hlen Hargs Hh Hf Hidem Hdirabs Hfile Hdir Hmode. unfold args_of in Hargs.
  destruct w as [m i f o cl reg si tr]. cbn in * |-. subst.
  erewrite (exec_iteration abspath dirname basename) by (cbn; reflexivity).
  rewrite take_all in * by assumption.
  rewrite (handle_PUT abspath dirname _ h); [|by rewrite Hargs|done].
  unfold Server.put. rewrite Hargs. cbn.
  assert (fs_exists abspath m (dirname (abspath p)) = true) as Hex by exists_yes.
  assert (fs_open abspath dirname m (abspath p) ModeWPlus
          = Ok (<[abspath p := File true true ""]> m)) as Hopen
    by (eapply fs_open_to_create; [not_empty|done|done..]).
  step. unfold Server.vprint, Server.esend, send. cbn. step. step. step.
  destruct (Str.is_empty (Str.take 4096 data)) eqn:E; cbn.
  - apply is_empty_true in E. rewrite E. done.
  - step. split; [reflexivity|].
    unfold fs_write. rewrite Hidem, lookup_insert_eq. cbn. by rewrite insert_insert_eq.
Qed.

(** X6: a PUT whose directory is missing and cannot be made (what should
    hold it is a regular file) is answered INVALID; no file or directory
    is created and the loop goes on. *)
Theorem PUT_is_refused_when_the_directory_cannot_be_made
    (w : host) (command h src p : string) (rest : list (result string))
    (r wr : bool) (c : string) :
  inbox w = Ok command :: rest →
  args_of command = [h; src; p] →
  Str.upper h = "PUT" →
  faults w = [] →
  fs w !! abspath (dirname (abspath p)) = None →
  fs w !! dirname (abspath (dirname (abspath p))) = Some (File r wr c) →
  fst (exec iteration w) = Done Continue
  ∧ outbox (snd (exec iteration w)) = outbox w ++ ["INVALID"]
  ∧ fs (snd (exec iteration w)) = fs w.
Proof.
  intros Hin Hargs Hh Hf Hnone Hparent. unfold args_of in Hargs.
  destruct w as [m i f o cl reg si tr]. cbn in * |-. subst.
  erewrite (exec_iteration abspath dirname basename) by (cbn; reflexivity).
  rewrite (handle_PUT abspath dirname _ h); [|by rewrite Hargs|done].
  unfold Server.put. rewrite Hargs. cbn.
  assert (fs_exists abspath m (dirname (abspath p)) = false) as Hex by exists_no.
  step. unfold makedirs. cbn.
  rewrite (exec_makedirs_failed _ _ _ _ OSError)
    by (cbn; eapply fs_makedirs_under_a_file; eauto).
  cbn. unfold Server.vprint, Server.esend, send. cbn. step. done.
Qed.

(** X7: a PUT whose directory is missing, where it can be made (in a
    parent in which the owner may create entries), makes it before
    answering VALID, and makes it with mode 1: the [True] of
    [makedirs(dirs, True)] stands where the mode goes.  The directory is
    there, with that mode, however the rest of the command ends. *)
Theorem PUT_makes_the_missing_directory_with_mode_1
    (w : host) (command h src p : string) (rest : list (result string)) (mode : Z) :
  inbox w = Ok command :: rest →
  args_of command = [h; src; p] →
  Str.upper h = "PUT" →
  faults w = [] →
  trace w = [] →
  fs w !! abspath (dirname (abspath p)) = None →
  fs w !! dirname (abspath (dirname (abspath p))) = Some (Dir mode) →
  dir_writable mode = true →
  fs (snd (exec iteration w)) !! abspath (dirname (abspath p)) = Some (Dir 1)
  ∧ take 4 (trace (snd (exec iteration w)))
    = [EvReceived (Str.take 1024 command); EvExists (dirname (abspath p)) false;
       EvMakedirs (dirname (abspath p)) true; EvSent "VALID"].
Proof.
  intros Hin Hargs Hh Hf Htr Hnone Hparent Hmode. unfold args_of in Hargs.
  destruct w as [m i f o cl reg si tr]. cbn in * |-. subst.
  erewrite (exec_iteration abspath dirname basename) by (cbn; reflexivity).
  rewrite (handle_PUT abspath dirname _ h); [|by rewrite Hargs|done].
  unfold Server.put. rewrite Hargs. cbn.
  assert (fs_exists abspath m (dirname (abspath p)) = false) as Hex by exists_no.
  step. unfold makedirs. cbn.
  erewrite exec_makedirs_ok
    by (cbn; eapply fs_makedirs_in_a_directory; [not_empty|reflexivity|eauto..]).
  cbn. unfold Server.vprint, Server.esend, send. cbn. step.
  match goal with |- context [exec ?prog ?host] =>
    pose proof (run_keeps_directories prog host (abspath (dirname (abspath p))) 1) as Hkeep;
    destruct (run_extends_the_trace prog host) as [t Ht]
  end.
  split.
  - apply Hkeep. cbn. apply lookup_insert_eq.
  - rewrite Ht. reflexivity.
Qed.

(** X8: a [ConnectionError] raised by the send of VALID is not taken for
    a disconnection.  It is raised inside the [try] whose clause catches
    every [OSError], so it becomes an invalid command, and the clause for
    that sends INVALID on the same socket.  When that send fails in its
    turn (as it does on a connection that is gone) its exception is raised
    inside an [except] clause and leaves the loop uncaught; were it to go
    through, the loop would go on.  Either way the [break] of a
    disconnection is not reached. *)
Theorem failed_send_of_VALID_is_taken_for_an_invalid_command
    (w : host) (command h p q : string) (rest : list (result string))
    (nd : node) (fate : option exn) (f : list (option exn)) :
  inbox w = Ok command :: rest →
  args_of command = [h; p; q] →
  Str.upper h = "GET" →
  faults w = Some ConnectionError :: fate :: f →
  p ≠ "" →
  fs w !! abspath p = Some nd →
  let tried := send_failed "VALID" ConnectionError
                 (log (EvExists p true) (received 1024 command w)) in
  exec iteration w
  = match fate with
    | Some e => (Uncaught e, send_failed "INVALID" e tried)
    | None => (Done Continue, sent "INVALID" tried)
    end.
Proof.
  intros Hin Hargs Hh Hf Hp Hnd tried. subst tried. unfold args_of in Hargs.
  rewrite (exec_iteration abspath dirname basename w command rest Hin).
  rewrite (handle_GET abspath dirname _ h); [|by rewrite Hargs|done].
  unfold Server.get. rewrite Hargs. cbn.
  rewrite exec_exists. cbn. rewrite (fs_exists_found abspath _ p _ nd Hp eq_refl Hnd). cbn.
  unfold Server.vprint, Server.esend, send. cbn.
  erewrite exec_send_failed by (cbn; exact Hf). cbn.
  destruct fate as [e|].
  - erewrite exec_send_failed by (cbn; by rewrite Hf). reflexivity.
  - rewrite exec_send_ok by (unfold next_send_ok; cbn; by rewrite Hf). reflexivity.
Qed.

(** X9: a [ConnectionError] raised by the send of the file, after VALID,
    does end the session as a disconnection: the loop is left, the socket
    is closed and the address is removed from [clients]. *)
Theorem failed_send_of_the_file_ends_the_session
    (w : host) (command h p q : string) (rest : list (result string))
    (wr : bool) (content : string) (f : list (option exn)) (n : nat) (addr : address) :
  inbox w = Ok command :: rest →
  args_of command = [h; p; q] →
  Str.upper h = "GET" →
  faults w = None :: Some ConnectionError :: f →
  p ≠ "" →
  fs w !! abspath p = Some (File true wr content) →
  addr ∈ clients w →
  fst (exec (handle_client (S n) addr) w) = Done true
  ∧ conn_closed (snd (exec (handle_client (S n) addr) w)) = true
  ∧ clients (snd (exec (handle_client (S n) addr) w)) = clients w ∖ {[addr]}
  ∧ fs (snd (exec (handle_client (S n) addr) w)) = fs w.
Proof.
  intros Hin Hargs Hh Hf Hp0 Hp Haddr. unfold args_of in Hargs.
  enough (∃ w', exec (handle_client (S n) addr) w = (Done true, w')
                ∧ conn_closed w' = true ∧ clients w' = clients w ∖ {[addr]}
                ∧ fs w' = fs w) as (w' & -> & ?); [done|].
  destruct w as [m i fl o cl reg si tr]. cbn in * |-. subst.
  assert (fs_exists abspath m p = true) as Hex by exists_yes.
  assert (fs_open abspath dirname m p ModeR = Ok m) as Hopen by opens_to_read.
  destruct (Str.is_empty (fs_read abspath m p 4096)) eqn:E;
    (eexists; split;
     [ unfold Server.handle_client; rewrite run_bind, exec_loop_S;
       erewrite (exec_iteration abspath dirname basename) by (cbn; reflexivity);
       (rewrite (handle_GET abspath dirname _ h); [|by rewrite Hargs|done]);
       unfold Server.get; rewrite Hargs; cbn;
       step; unfold Server.vprint, Server.esend, send; cbn; step; step; step;
       (erewrite exec_send_failed by (cbn; reflexivity)); cbn;
       rewrite exec_ret; cbn; unfold close, del_client; cbn;
       rewrite exec_close; rewrite exec_del by exact Haddr; cbn;
       rewrite exec_ret; reflexivity
     | cbn; done ]).
Qed.


End ServerTransfers.

(** ** What is sent before VALID *)

(** Before VALID the server sends nothing but its two replies. *)
Definition replies_first (seen : bool) (e : event) : bool :=
  match e with
  | EvSent m => seen || String.eqb m "VALID" || String.eqb m "INVALID"
  | _ => true
  end.

(** Before VALID the client sends nothing but the command line. *)
Definition asks_first (command : string) (seen : bool) (e : event) : bool :=
  match e with
  | EvSent m => seen || String.eqb m command
  | _ => true
  end.

Section PayloadOrder.

Variables abspath dirname basename : string → string.

Local Abbreviation exec := (run abspath dirname basename).

Lemma server_iteration_replies_first :
  well_ordered replies_first VALID_sent false (Server.iteration abspath dirname).
Proof.
  unfold Server.iteration, Server.on_error, Server.dispatch, Server.get, Server.put,
    Server.ls, Server.vprint, Server.esend, OSError_to_invalid, index,
    send, recv, path_exists, open, read, write, makedirs, listdir, call_result.
  well_ordered_tac.
Qed.

Lemma client_execute_asks_first (command : string) :
  well_ordered (asks_first command) VALID_received false
    (Client.execute abspath dirname command).
Proof.
  unfold Client.execute, Client.on_error, Client.dispatch, Client.get, Client.put, Client.ls,
    Client.valid_command, OSError_to_invalid, index,
    send, recv, path_exists, open, read, write, makedirs, listdir, call_result.
  repeat (cbn;
          first [ apply wo_ret
                | apply wo_raise
                | apply wo_vis;
                  [intros []; cbn; rewrite ?String.eqb_refl, ?orb_true_r; reflexivity
                  |intros ?]
                | apply wo_vis;
                  [intros ?; cbn; rewrite ?String.eqb_refl, ?orb_true_r; reflexivity
                  |intros ?]
                | case_match ]).
Qed.

(** X14: on every path through one turn of the server's loop, whatever
    the command and whatever the files, the sockets and the sends do, the
    server sends a file's text or a listing only after it has sent VALID:
    before that it sends nothing but VALID or INVALID. *)
Theorem server_sends_data_only_after_VALID (w : host) :
  trace w = [] →
  ordered replies_first VALID_sent false
    (trace (snd (exec (Server.iteration abspath dirname) w))) = true.
Proof.
  intros Hw.
  apply (run_well_ordered abspath dirname basename _ _ false).
  - apply server_iteration_replies_first.
  - by rewrite Hw.
  - by rewrite Hw.
Qed.

(** X27: on every path through the handling of one command line, the
    client sends a file's text only after it has received VALID: before
    that it sends nothing but the command line itself. *)
Theorem client_sends_data_only_after_VALID (w : host) (command : string) :
  trace w = [] →
  ordered (asks_first command) VALID_received false
    (trace (snd (exec (Client.execute abspath dirname command) w))) = true.
Proof.
  intros Hw.
  apply (run_well_ordered abspath dirname basename _ _ false).
  - apply client_execute_asks_first.
  - by rewrite Hw.
  - by rewrite Hw.
Qed.

End PayloadOrder.

(** ** The registry over many connections *)

Section Registry.

Variables abspath dirname basename : string → string.

Local Abbreviation exec := (run abspath dirname basename).
Local Abbreviation handle_client := (Server.handle_client abspath dirname).
Local Abbreviation step := (main_step abspath dirname basename).
Local Abbreviation serve := (main abspath dirname basename).

(** A handler that has returned has removed its entry. *)
Lemma entry_gone_when_the_handler_returns (n : nat) (addr : address) (w : host) :
  fst (exec (handle_client n addr) w) = Done true →
  addr ∉ clients (snd (exec (handle_client n addr) w)).
Proof.
  unfold Server.handle_client. rewrite run_bind.
  destruct (exec (Server.loop abspath dirname n) w) as [[[]|e|p'] w1]; cbn;
    rewrite ?exec_ret; cbn; try discriminate.
  unfold close, del_client. cbn. rewrite exec_close.
  destruct (decide (addr ∈ clients (log EvClose (set_closed true w1)))) as [Hin|Hout].
  - rewrite exec_del by exact Hin. cbn. rewrite exec_ret. cbn. intros _.
    rewrite elem_of_difference, elem_of_singleton. tauto.
  - rewrite exec_del_missing by exact Hout. cbn. rewrite exec_raise. discriminate.
Qed.

(** X15: the thread is looked up in [clients] a second time for the
    [join].  When the handler has returned by then (it removes its entry
    as its last step) the look-up raises [KeyError] in [main]: the accept
    loop ends and the connections still to come are not served.  When the
    look-up comes first the loop goes on with the next connection. *)
Theorem join_after_the_handler_has_returned_raises_KeyError
    (n : nat) (w : host) (c : connection) (more : list (connection * join_lookup)) :
  fst (exec (handle_client n (peer c)) (registered c w)) = Done true →
  serve n ((c, AfterThreadEnds) :: more) w
  = (Uncaught KeyError, snd (exec (handle_client n (peer c)) (registered c w)))
  ∧ serve n ((c, BeforeThreadEnds) :: more) w
    = serve n more (snd (exec (handle_client n (peer c)) (registered c w))).
Proof.
  intros Hret. pose proof (entry_gone_when_the_handler_returns n (peer c) _ Hret) as Hgone.
  split; cbn; unfold main_step; fold (registered c w); [|reflexivity].
  by case_decide.
Qed.

End Registry.

(** ** The client on its own *)

Section ClientFacts.

Variables abspath dirname basename : string → string.

Hypothesis abspath_not_empty : ∀ p, abspath p ≠ "".
Hypothesis dirname_not_empty : ∀ p, dirname (abspath p) ≠ "".

Local Abbreviation exec := (run abspath dirname basename).
Local Abbreviation execute := (Client.execute abspath dirname).
Local Abbreviation iteration := (Client.iteration abspath dirname).

(** The line typed, once read. *)
Definition typed (command : string) (rest : list string) (w : host) : host :=
  log (EvInput command) (set_stdin rest w).

Lemma exec_client_iteration (w : host) (command : string) (rest : list string) :
  stdin w = command :: rest →
  String.eqb command "quit" = false →
  exec iteration w = exec (execute command) (typed command rest w).
Proof.
  intros Hin Hq. unfold Client.iteration, input. cbn.
  rewrite (exec_input _ _ _ _ _ command rest Hin). cbn. rewrite Hq. reflexivity.
Qed.

Lemma valid_header_not_quit (command h : string) :
  Str.split_on " " command !! 0%nat = Some h →
  mem (Str.upper h) Client.valid_headers = true →
  String.eqb command "quit" = false.
Proof.
  intros E Hm. apply String.eqb_neq. intros ->. vm_compute in E.
  injection E as <-. vm_compute in Hm. discriminate.
Qed.

Lemma execute_LS (command h : string) :
  Str.split_on " " command !! 0%nat = Some h → Str.upper h = "LS" →
  execute command =
  catch ((Client.ls command (Str.split_on " " command) ;; Ret tt) ;; Ret Continue)
        Client.on_error.
Proof.
  intros E Hh. unfold Client.execute, index. rewrite E. cbn. rewrite Hh. reflexivity.
Qed.

Lemma exec_main_S (n : nat) (w : host) :
  exec (Client.main abspath dirname (S n)) w =
  match exec iteration w with
  | (Done Continue, w') => exec (Client.main abspath dirname n) w'
  | (Done Break, w') => (Done true, w')
  | (Uncaught e, w') => (Uncaught e, w')
  | (Blocked p', w') =>
      (Blocked (c <- p' ;;
                match c with
                | Continue => Client.main abspath dirname n
                | Break => Ret true
                end), w')
  end.
Proof.
  change (Client.main abspath dirname (S n))
    with (c <- iteration ;;
          match c with Continue => Client.main abspath dirname n | Break => Ret true end).
  rewrite run_bind. destruct (exec iteration w) as [[[]|e|p'] w']; reflexivity.
Qed.

(** *** What the client refuses by itself *)

(** X16: a line whose first word, in upper case, is none of GET, PUT and
    LS (and that is not [quit]) is refused by the client itself: nothing
    is sent and nothing is touched, and the next line is asked for. *)
Theorem unknown_command_is_refused_locally
    (w : host) (command h : string) (rest : list string) :
  stdin w = command :: rest →
  command ≠ "quit" →
  Str.split_on " " command !! 0%nat = Some h →
  mem (Str.upper h) Client.valid_headers = false →
  exec iteration w = (Done Continue, typed command rest w).
Proof.
  intros Hin Hq E Hm. apply String.eqb_neq in Hq.
  rewrite (exec_client_iteration w command rest Hin Hq).
  unfold Client.execute, index. rewrite E. cbn -[mem]. rewrite Hm. reflexivity.
Qed.

(** X17: the client tests the number of arguments before anything else:
    a GET or a PUT line without exactly two spaces, and an LS line without
    exactly one, is refused without a call; unlike the server, the client
    never fails on [LS] alone. *)
Theorem wrong_arity_is_refused_locally
    (w : host) (command h : string) (rest : list string) :
  stdin w = command :: rest →
  Str.split_on " " command !! 0%nat = Some h →
  ((Str.upper h = "GET" ∨ Str.upper h = "PUT") ∧ count_char " " command ≠ 2%nat)
  ∨ (Str.upper h = "LS" ∧ count_char " " command ≠ 1%nat) →
  exec iteration w = (Done Continue, typed command rest w).
Proof.
  intros Hin E Hbad.
  assert (mem (Str.upper h) Client.valid_headers = true) as Hm
    by (destruct Hbad as [[[->| ->] _]|[-> _]]; reflexivity).
  rewrite (exec_client_iteration w command rest Hin (valid_header_not_quit _ _ E Hm)).
  destruct Hbad as [[Hh Hn]|[Hh Hn]].
  - assert ((length (Str.split_on " " command) =? 3)%nat = false) as Hlen
      by (apply Nat.eqb_neq; rewrite length_split_on; lia).
    destruct Hh as [Hh|Hh];
      [rewrite (execute_GET abspath dirname command h E Hh)
      |rewrite (execute_PUT abspath dirname command h E Hh)];
      unfold Client.get, Client.put; rewrite Hlen; reflexivity.
  - assert ((length (Str.split_on " " command) =? 2)%nat = false) as Hlen
      by (apply Nat.eqb_neq; rewrite length_split_on; lia).
    rewrite (execute_LS command h E Hh). unfold Client.ls. rewrite Hlen. reflexivity.
Qed.

(** X18: a PUT whose source does not exist on the client is refused
    after the one look at the path: the server is not asked. *)
Theorem PUT_of_a_missing_file_asks_nobody
    (w : host) (command h src dst : string) (rest : list string) :
  stdin w = command :: rest →
  Str.split_on " " command = [h; src; dst] →
  Str.upper h = "PUT" →
  fs w !! abspath (abspath src) = None →
  exec iteration w
  = (Done Continue, log (EvExists (abspath src) false) (typed command rest w)).
Proof.
  intros Hin Hargs Hh Hsrc.
  rewrite (exec_client_iteration w command rest Hin (split_on_not_quit _ _ _ _ Hargs)).
  rewrite (execute_PUT abspath dirname command h); [|by rewrite Hargs|done].
  unfold Client.put. rewrite Hargs. cbn.
  rewrite exec_exists. cbn.
  rewrite (fs_exists_missing abspath _ (abspath src) _ eq_refl Hsrc). reflexivity.
Qed.

(** X19: [LS client] lists the client's own directory and sends
    nothing. *)
Theorem LS_client_is_answered_locally
    (w : host) (command h : string) (rest : list string) :
  stdin w = command :: rest →
  Str.split_on " " command = [h; "client"] →
  Str.upper h = "LS" →
  exec iteration w = (Done Continue, log (EvListdir curdir) (typed command rest w)).
Proof.
  intros Hin Hargs Hh.
  rewrite (exec_client_iteration w command rest Hin (split_on_not_quit _ _ _ _ Hargs)).
  rewrite (execute_LS command h); [|by rewrite Hargs|done].
  unfold Client.ls. rewrite Hargs. cbn. rewrite exec_listdir. reflexivity.
Qed.

(** *** What the server's reply decides *)

(** X20: the reply is looked up in a dictionary with the two keys VALID
    and INVALID.  Any other reply (the empty string of a closed
    connection, or VALID run together with what follows it) raises
    [KeyError], which no clause of the loop catches: the client ends with
    it. *)
Theorem unexpected_reply_raises_KeyError
    (w : host) (command h reply : string) (more : list string)
    (rest : list (result string)) (n : nat) :
  stdin w = command :: more →
  Str.split_on " " command = [h; "server"] →
  Str.upper h = "LS" →
  faults w = [] →
  inbox w = Ok reply :: rest →
  Str.take 1024 reply ≠ "VALID" →
  Str.take 1024 reply ≠ "INVALID" →
  exec (Client.main abspath dirname (S n)) w
  = (Uncaught KeyError, received 1024 reply (sent command (typed command more w))).
Proof.
  intros Hin Hargs Hh Hf Hib Hv Hi.
  apply String.eqb_neq in Hv, Hi.
  rewrite exec_main_S.
  rewrite (exec_client_iteration w command more Hin (split_on_not_quit _ _ _ _ Hargs)).
  rewrite (execute_LS command h); [|by rewrite Hargs|done].
  unfold Client.ls. rewrite Hargs. cbn.
  unfold Client.valid_command, send, recv. cbn.
  rewrite exec_send_ok by (unfold next_send_ok; cbn; by rewrite Hf). cbn.
  erewrite exec_recv by (cbn; exact Hib). cbn.
  rewrite Hv, Hi. cbn. reflexivity.
Qed.

(** X21: a GET that the server answers with INVALID touches no file of
    the client: the destination is neither created nor emptied. *)
Theorem refused_GET_touches_no_file
    (w : host) (command h src dst : string) (more : list string)
    (rest : list (result string)) (d : node) :
  stdin w = command :: more →
  Str.split_on " " command = [h; src; dst] →
  Str.upper h = "GET" →
  faults w = [] →
  inbox w = Ok "INVALID" :: rest →
  fs w !! abspath (dirname (abspath dst)) = Some d →
  fst (exec iteration w) = Done Continue
  ∧ fs (snd (exec iteration w)) = fs w
  ∧ outbox (snd (exec iteration w)) = outbox w ++ [command].
Proof.
  intros Hin Hargs Hh Hf Hib Hd.
  pose proof (split_on_nonempty _ _ _ _ _ Hargs) as Hne.
  rewrite (exec_client_iteration w command more Hin (split_on_not_quit _ _ _ _ Hargs)).
  rewrite (execute_GET abspath dirname command h); [|by rewrite Hargs|done].
  unfold Client.get. rewrite Hargs. cbn.
  destruct w as [m i fl o cl reg si tr]. cbn in * |-. subst.
  assert (fs_exists abspath m (dirname (abspath dst)) = true) as Hex by exists_yes.
  unfold typed. step. unfold Client.valid_command, send, recv. cbn. step. step.
  done.
Qed.

(** X22: the client makes the missing directory of the destination (in
    a parent in which the owner may create entries) before it asks the
    server, and makes it with mode 1.  When the server then answers INVALID
    the directory stays behind. *)
Theorem refused_GET_leaves_the_new_directory
    (w : host) (command h src dst : string) (more : list string)
    (rest : list (result string)) (mode : Z) :
  stdin w = command :: more →
  Str.split_on " " command = [h; src; dst] →
  Str.upper h = "GET" →
  faults w = [] →
  inbox w = Ok "INVALID" :: rest →
  fs w !! abspath (dirname (abspath dst)) = None →
  fs w !! dirname (abspath (dirname (abspath dst))) = Some (Dir mode) →
  dir_writable mode = true →
  fst (exec iteration w) = Done Continue
  ∧ fs (snd (exec iteration w)) = <[abspath (dirname (abspath dst)) := Dir 1]> (fs w).
Proof.
  intros Hin Hargs Hh Hf Hib Hnone Hparent Hmode.
  pose proof (split_on_nonempty _ _ _ _ _ Hargs) as Hne.
  rewrite (exec_client_iteration w command more Hin (split_on_not_quit _ _ _ _ Hargs)).
  rewrite (execute_GET abspath dirname command h); [|by rewrite Hargs|done].
  unfold Client.get. rewrite Hargs. cbn.
  destruct w as [m i fl o cl reg si tr]. cbn in * |-. subst.
  assert (fs_exists abspath m (dirname (abspath dst)) = false) as Hex by exists_no.
  unfold typed. step. unfold makedirs. cbn.
  erewrite exec_makedirs_ok
    by (cbn; eapply fs_makedirs_in_a_directory; [not_empty|reflexivity|eauto..]).
  cbn. unfold Client.valid_command, send, recv. cbn. step. step.
  done.
Qed.


(** X24: a PUT that the server answers with VALID sends one more
    message, the first 4096 characters of the source as read in text
    mode, and leaves the client's files as they were.  When the source is
    empty the message is the empty string, and nothing goes out. *)
Theorem PUT_sends_the_first_chunk
    (w : host) (command h src dst : string) (more : list string)
    (rest : list (result string)) (wr : bool) (content : string) :
  stdin w = command :: more →
  Str.split_on " " command = [h; src; dst] →
  Str.upper h = "PUT" →
  faults w = [] →
  inbox w = Ok "VALID" :: rest →
  abspath (abspath src) = abspath src →
  fs w !! abspath src = Some (File true wr content) →
  let chunk := Str.take 4096 (Str.universal_newlines content) in
  fst (exec iteration w) = Done Continue
  ∧ outbox (snd (exec iteration w))
    = outbox w ++ command :: (if Str.is_empty chunk then [] else [chunk])
  ∧ fs (snd (exec iteration w)) = fs w.
Proof.
  intros Hin Hargs Hh Hf Hib Hidem Hsrc chunk.
  pose proof (split_on_nonempty _ _ _ _ _ Hargs) as Hne.
  rewrite (exec_client_iteration w command more Hin (split_on_not_quit _ _ _ _ Hargs)).
  rewrite (execute_PUT abspath dirname command h); [|by rewrite Hargs|done].
  unfold Client.put. rewrite Hargs. cbn.
  destruct w as [m i fl o cl reg si tr]. cbn in * |-. subst.
  assert (fs_exists abspath m (abspath src) = true) as Hex by exists_yes.
  assert (fs_open abspath dirname m (abspath src) ModeR = Ok m) as Hopen by opens_to_read.
  assert (fs_read abspath m (abspath src) 4096 = chunk) as Hread
    by (unfold fs_read; by rewrite Hidem, Hsrc).
  unfold typed. step. unfold Client.valid_command, send, recv. cbn. step. step.
  step. step. step.
  destruct (Str.is_empty chunk); cbn; rewrite <- ?app_assoc; done.
Qed.

(** *** How the client ends *)

(** X25: a [ConnectionError] met while the command is sent leaves the
    loop; the lines still to come are not read, and the socket is not
    closed on the way out. *)
Theorem failed_send_leaves_the_loop_without_closing
    (w : host) (command h : string) (more : list string)
    (f : list (option exn)) (n : nat) :
  stdin w = command :: more →
  Str.split_on " " command = [h; "server"] →
  Str.upper h = "LS" →
  faults w = Some ConnectionError :: f →
  exec (Client.main abspath dirname (S n)) w
  = (Done true, send_failed command ConnectionError (typed command more w)).
Proof.
  intros Hin Hargs Hh Hf.
  rewrite exec_main_S.
  rewrite (exec_client_iteration w command more Hin (split_on_not_quit _ _ _ _ Hargs)).
  rewrite (execute_LS command h); [|by rewrite Hargs|done].
  unfold Client.ls. rewrite Hargs. cbn.
  unfold Client.valid_command, send, recv. cbn.
  erewrite exec_send_failed by (cbn; exact Hf). reflexivity.
Qed.

(** Calls that leave the socket open. *)
Definition keeps_open (a : action) : bool :=
  match a with
  | Close => false
  | _ => true
  end.

Lemma perform_keeps_open (a : action) (w w' : host) (r : reply a) :
  keeps_open a = true → perform abspath dirname basename a w = Some (r, w') →
  conn_closed w' = conn_closed w.
Proof.
  destruct a; cbn; try discriminate; intros _ H; repeat case_match; simplify_eq; reflexivity.
Qed.

Lemma execute_keeps_open (command : string) : only_calls keeps_open (execute command).
Proof.
  unfold Client.execute, Client.on_error, Client.dispatch, Client.get, Client.put,
    Client.ls, Client.valid_command, send, recv, path_exists, open, read, write,
    makedirs, listdir.
  only_calls_tac.
Qed.

(** X26: the client closes the socket on the line [quit], spelled
    exactly so, and on no other line, whatever the command does. *)
Theorem socket_is_closed_by_quit_alone
    (w : host) (command : string) (rest : list string) :
  stdin w = command :: rest →
  conn_closed w = false →
  conn_closed (snd (exec iteration w)) = true ↔ command = "quit".
Proof.
  intros Hin Hopen. unfold Client.iteration, input. cbn.
  rewrite (exec_input _ _ _ _ _ command rest Hin). cbn.
  destruct (String.eqb_spec command "quit") as [->|Hq].
  - unfold close. cbn. rewrite exec_close, exec_ret. done.
  - split; [|done]. intros Hc. exfalso.
    rewrite (run_invariant abspath dirname basename keeps_open
               (λ w', conn_closed w' = false)) in Hc;
      [discriminate| |apply execute_keeps_open|done].
    intros a w1 r w2 Ha H1 Hp. by rewrite (perform_keeps_open a w1 w2 r Ha Hp).
Qed.

End ClientFacts.

(** ** A client and a server together, again *)

Section MoreExchanges.

Variables abspath dirname basename : string → string.

Hypothesis abspath_not_empty : ∀ p, abspath p ≠ "".
Hypothesis dirname_not_empty : ∀ p, dirname (abspath p) ≠ "".

Local Abbreviation exec := (run abspath dirname basename).
Local Abbreviation talk := (exchange abspath dirname basename).


End MoreExchanges.

(** ** Sessions that never end *)

Section Deadlocks.

Variables abspath dirname basename : string → string.

Hypothesis abspath_not_empty : ∀ p, abspath p ≠ "".
Hypothesis dirname_not_empty : ∀ p, dirname (abspath p) ≠ "".

Local Abbreviation exec := (run abspath dirname basename).
Local Abbreviation talk := (exchange abspath dirname basename).

Local Arguments Server.loop : simpl never.
Local Arguments Client.main : simpl never.

(** One round of [exchange], from what the two runs give. *)
Lemma exchange_round {A B : Type} (rounds : nat) (pc : prog A) (c : host)
    (ps : prog B) (s : host) (stc : status A) (c1 : host) (sts : status B) (s1 : host) :
  exec pc c = (stc, c1) →
  exec ps (deliver c1 s) = (sts, s1) →
  talk (S rounds) pc c ps s
  = talk rounds (resume stc) (deliver s1 (flush c1)) (resume sts) (flush s1).
Proof. intros Hc Hs. cbn. rewrite Hc, Hs. reflexivity. Qed.

(** Two hosts that both wait for a message, with nothing on the way,
    wait for ever. *)
Lemma exchange_stuck {A B : Type} (rounds : nat) (nc ns : N)
    (kc : result string → prog A) (ks : result string → prog B) (c s : host) :
  inbox c = [] → outbox c = [] → inbox s = [] → outbox s = [] →
  talk rounds (Vis (Recv nc) kc) c (Vis (Recv ns) ks) s
  = ((Blocked (Vis (Recv nc) kc), c), (Blocked (Vis (Recv ns) ks), s)).
Proof.
  intros Hci Hco Hsi Hso.
  assert (deliver c s = s) as Hcs
    by (destruct s; cbn in *; subst; unfold deliver; by rewrite Hco).
  assert (deliver s c = c) as Hsc
    by (destruct c; cbn in *; subst; unfold deliver; by rewrite Hso).
  assert (flush c = c) as Hfc by (destruct c; cbn in *; by subst).
  assert (flush s = s) as Hfs by (destruct s; cbn in *; by subst).
  induction rounds as [|rounds IH].
  - cbn. by rewrite !exec_recv_blocked.
  - rewrite (exchange_round rounds _ _ _ _ (Blocked (Vis (Recv nc) kc)) c
               (Blocked (Vis (Recv ns) ks)) s).
    + cbn [resume]. rewrite Hfc, Hfs, Hsc. exact IH.
    + by apply exec_recv_blocked.
    + rewrite Hcs. by apply exec_recv_blocked.
Qed.

(** The same when the client has one more run to make before it waits. *)
Lemma exchange_settles {A B : Type} (rounds : nat) (pc : prog A) (nc ns : N)
    (kc : result string → prog A) (ks : result string → prog B) (c c1 s : host) :
  exec pc c = (Blocked (Vis (Recv nc) kc), c1) →
  outbox c1 = [] → inbox c1 = [] → inbox s = [] → outbox s = [] →
  talk rounds pc c (Vis (Recv ns) ks) s
  = ((Blocked (Vis (Recv nc) kc), c1), (Blocked (Vis (Recv ns) ks), s)).
Proof.
  intros Hrun Hco Hci Hsi Hso.
  assert (deliver c1 s = s) as Hcs
    by (destruct s; cbn in *; subst; unfold deliver; by rewrite Hco).
  assert (deliver s c1 = c1) as Hsc
    by (destruct c1; cbn in *; subst; unfold deliver; by rewrite Hso).
  assert (flush c1 = c1) as Hfc by (destruct c1; cbn in *; by subst).
  assert (flush s = s) as Hfs by (destruct s; cbn in *; by subst).
  destruct rounds as [|rounds].
  - cbn. rewrite Hrun. by rewrite exec_recv_blocked.
  - rewrite (exchange_round rounds _ _ _ _ _ c1 (Blocked (Vis (Recv ns) ks)) s Hrun).
    + cbn [resume]. rewrite Hfc, Hfs, Hsc. by apply exchange_stuck.
    + rewrite Hcs. by apply exec_recv_blocked.
Qed.

(** X29: [LS server] when the server's directory is empty.  The listing
    is the empty string, whose send puts nothing on the wire: after VALID
    the client waits for a listing that never comes, while the server
    waits for the next command.  However long the two go on, the client
    is still in [recv(4096)] and has read no further line. *)
Theorem LS_server_of_an_empty_directory_never_ends
    (rounds : nat) (c s : host) (command h : string) (more : list string)
    (n m : nat) (addr : address) :
  stdin c = command :: more → inbox c = [] → faults c = [] → outbox c = [] →
  inbox s = [] → faults s = [] → outbox s = [] →
  (Str.len command ≤ 1024)%N →
  Str.split_on " " command = [h; "server"] →
  Str.upper h = "LS" →
  fs_listdir abspath dirname basename (fs s) curdir = [] →
  ∃ kc ks c' s',
    talk (S rounds) (Client.main abspath dirname (S n)) c
                    (Server.handle_client abspath dirname (S (S m)) addr) s
    = ((Blocked (Vis (Recv 4096) kc), c'), (Blocked (Vis (Recv 1024) ks), s'))
    ∧ stdin c' = more
    ∧ outbox s' = [].
Proof.
  intros Hstdin Hci Hcf Hco Hsi Hsf Hso Hlen Hargs Hh Hls.
  destruct c as [cm ci cf co ccl creg csi ctr]. destruct s as [sm si sf so scl sreg ssi str].
  cbn in * |-. subst.
  pose proof (split_on_not_quit _ _ _ _ Hargs) as Hquit.
  pose proof (split_on_nonempty _ _ _ _ _ Hargs) as Hne.
  do 4 eexists. split.
  { eapply eq_trans.
    { eapply exchange_round.
      - rewrite (exec_main_S abspath dirname basename).
        erewrite (exec_client_iteration abspath dirname basename) by (cbn; done).
        rewrite (execute_LS abspath dirname command h); [|by rewrite Hargs|done].
        unfold Client.ls. rewrite Hargs. cbn.
        unfold typed, Client.valid_command, send, recv. cbn.
        step. step. reflexivity.
      - remember (Server.handle_client abspath dirname (S (S m)) addr) as server.
        unfold deliver, set_inbox; cbn. subst server.
        unfold Server.handle_client. rewrite run_bind, exec_loop_S.
        erewrite (exec_iteration abspath dirname basename) by side.
        rewrite take_all by assumption.
        rewrite (handle_LS abspath dirname _ h); [|by rewrite Hargs|done].
        unfold Server.ls. rewrite Hargs. cbn.
        unfold Server.vprint, Server.esend, send, listdir. cbn.
        unfold received, log, set_inbox; cbn. rewrite drop_all by assumption; cbn.
        step. step. rewrite Hls. change (Str.join NL []) with "". step. step.
        rewrite exec_loop_S. unfold Server.iteration, recv. cbn.
        step. reflexivity. }
    cbn [resume]. tidy.
    eapply exchange_settles; [step; step; reflexivity|reflexivity..]. }
  done.
Qed.


End Deadlocks.

(** * The scenarios *)

(** Concrete hosts, on the paths of [Posix]: a server whose working
    directory holds a text file, an empty file, a file without read
    permission and two directories, and a client with a file to send. *)
Module Scenario.
Import Posix.

Definition addr : address := ("192.0.2.7", 4000%nat).

Definition server_files : gmap string node :=
  <["/srv" := Dir 493]>
  (<["/srv/remote" := Dir 493]>
  (<["/srv/notes.txt" := File true true "hello"]>
  (<["/srv/empty.txt" := File true true ""]>
  (<["/srv/secret.txt" := File false true "key"]> ∅)))).

Definition client_files (content : string) : gmap string node :=
  <["/srv" := Dir 493]>
  (<["/srv/local" := Dir 493]>
  (<["/srv/local/a.txt" := File true true content]> ∅)).

(** The server's side of a session that will receive [msgs]. *)
Definition session (msgs : list (result string)) (fates : list (option exn)) : host :=
  Host server_files msgs fates [] false {[addr]} [] [].

(** A client at which [typed] is typed. *)
Definition client (content : string) (typed : list string) : host :=
  Host (client_files content) [] [] [] false ∅ typed [].

Definition iteration : prog control := Server.iteration abspath dirname.
Definition handle_client : nat → address → prog bool := Server.handle_client abspath dirname.

(** The scenario of the specification: [a.txt] is put on the server as
    [remote/b.txt] and fetched back as [local/c.txt]; the result is what
    [local/c.txt] holds at the end, if it exists. *)
Definition round_trip (content : string) : option string :=
  let c := client content ["PUT ./local/a.txt ./remote/b.txt"; "GET ./remote/b.txt ./local/c.txt"] in
  let s := session [] [] in
  let '((_, c'), _) :=
    exchange abspath dirname basename 2 (Client.main abspath dirname 2) c (handle_client 2 addr) s in
  match fs c' !! "/srv/local/c.txt" with
  | Some (File _ _ text) => Some text
  | _ => None
  end.

(** *** The session on its own *)

Lemma GET_leaves_server_files_unchanged_witness :
  fs (snd (run iteration (session [Ok "get notes.txt copy.txt"] []))) = server_files
  ∧ Forall (λ e, quiet e = true)
      (trace (snd (run iteration (session [Ok "get notes.txt copy.txt"] [])))).
Proof.
  apply (GET_leaves_server_files_unchanged abspath dirname basename
           (session [Ok "get notes.txt copy.txt"] []) "get notes.txt copy.txt" []);
    reflexivity.
Defined.

Lemma LS_alone_raises_IndexError_witness :
  fst (run (handle_client 3 addr) (session [Ok "LS"] [])) = Uncaught IndexError
  ∧ trace (snd (run (handle_client 3 addr) (session [Ok "LS"] []))) = [EvReceived "LS"]
  ∧ outbox (snd (run (handle_client 3 addr) (session [Ok "LS"] []))) = []
  ∧ fs (snd (run (handle_client 3 addr) (session [Ok "LS"] []))) = server_files
  ∧ conn_closed (snd (run (handle_client 3 addr) (session [Ok "LS"] []))) = false
  ∧ clients (snd (run (handle_client 3 addr) (session [Ok "LS"] []))) = {[addr]}.
Proof.
  apply (LS_alone_raises_IndexError abspath dirname basename
           (session [Ok "LS"] []) "LS" "LS" [] 2 addr); reflexivity.
Defined.

Lemma GET_of_unreadable_source_witness :
  fst (run iteration (session [Ok "GET secret.txt copy.txt"] [])) = Uncaught OSError
  ∧ trace (snd (run iteration (session [Ok "GET secret.txt copy.txt"] [])))
    = [EvReceived "GET secret.txt copy.txt"; EvExists "secret.txt" true;
       EvSent "VALID"; EvOpen "secret.txt" ModeR false]
  ∧ outbox (snd (run iteration (session [Ok "GET secret.txt copy.txt"] []))) = ["VALID"].
Proof.
  apply (GET_of_unreadable_source_is_answered_VALID abspath dirname basename
           (session [Ok "GET secret.txt copy.txt"] []) "GET secret.txt copy.txt"
           "GET" "secret.txt" "copy.txt" [] (File false true "key"));
    first [reflexivity | exact I | discriminate].
Defined.

Lemma end_of_stream_witness :
  fst (run (handle_client 5 addr) (session [Ok ""] [Some ConnectionError]))
  = Uncaught ConnectionError
  ∧ trace (snd (run (handle_client 5 addr) (session [Ok ""] [Some ConnectionError])))
    = [EvReceived ""; EvSendFailed "INVALID" ConnectionError]
  ∧ conn_closed (snd (run (handle_client 5 addr) (session [Ok ""] [Some ConnectionError])))
    = false
  ∧ clients (snd (run (handle_client 5 addr) (session [Ok ""] [Some ConnectionError])))
    = {[addr]}.
Proof.
  apply (end_of_stream_leaves_the_session_uncleaned abspath dirname basename
           (session [Ok ""] [Some ConnectionError]) [] [] 4 addr); reflexivity.
Defined.

Lemma entry_stays_witness :
  addr ∈ clients (snd (main_step abspath dirname basename 3 AfterThreadEnds (session [] [])
                         (Connection addr [Ok "ls"] [])))
  ∧ fst (main_step abspath dirname basename 3 AfterThreadEnds (session [] [])
           (Connection addr [Ok "ls"] [])) = Done tt.
Proof.
  apply (entry_stays_after_uncaught_exception abspath dirname basename
           2 AfterThreadEnds (session [] []) (Connection addr [Ok "ls"] []) "ls" "ls" []);
    reflexivity.
Defined.

(** The working directory of [server_files] holds four entries; the
    payload is their names, one to a line. *)
Lemma LS_server_sends_the_listing_witness :
  let names := ["secret.txt"; "empty.txt"; "notes.txt"; "remote"] in
  let payload :=
    "secret.txt" +:+ NL +:+ "empty.txt" +:+ NL +:+ "notes.txt" +:+ NL +:+ "remote" in
  let newline := ascii_of_nat 10 in
  run iteration (session [Ok "ls server"] [])
  = (Done Continue,
     sent payload
          (log (EvListdir curdir)
               (sent "VALID" (received 1024 "ls server" (session [Ok "ls server"] [])))))
  ∧ (∀ x, x ∈ names ↔
          ∃ k, is_Some (server_files !! k) ∧ dirname k = abspath curdir ∧
               k ≠ abspath curdir ∧ basename k = x)
  ∧ (names ≠ [] →
     Forall (λ x, Str.has_char newline x = false) names →
     Str.split_on newline payload = names)
  ∧ (names = [] →
     payload = ""
     ∧ outbox (snd (run iteration (session [Ok "ls server"] [])))
       = outbox (session [Ok "ls server"] []) ++ ["VALID"]).
Proof.
  exact (LS_server_sends_the_listing abspath dirname basename
           (session [Ok "ls server"] []) "ls server" "ls" []
           eq_refl eq_refl eq_refl eq_refl).
Defined.


(** *** The order of the calls *)

Lemma files_after_VALID_witness :
  ordered server_rule VALID_sent false
    (trace (snd (run iteration (session [Ok "PUT a.txt new/b.txt"; Ok "text"] [])))) = true
  ∧ ordered client_rule VALID_received false
      (trace (snd (run (Client.execute abspath dirname "GET notes.txt new/c.txt")
                     (client "text" [])))) = true
  ∧ ordered directories_before_asking is_send false
      (trace (snd (run (Client.execute abspath dirname "GET notes.txt new/c.txt")
                     (client "text" [])))) = true
  ∧ ordered lists_unasked uses_socket false
      (trace (snd (run (Client.execute abspath dirname "GET notes.txt new/c.txt")
                     (client "text" [])))) = true
  ∧ ordered silent_after_listing lists_directory false
      (trace (snd (run (Client.execute abspath dirname "GET notes.txt new/c.txt")
                     (client "text" [])))) = true.
Proof.
  apply (files_after_VALID_directories_before abspath dirname basename
           (session [Ok "PUT a.txt new/b.txt"; Ok "text"] []) (client "text" [])
           "GET notes.txt new/c.txt"); reflexivity.
Defined.

(** C1 as it is stated fails: the server's PUT makes the missing directory
    [new] before it sends VALID, and the client's GET makes [new] before it
    has even sent the command. *)
Lemma directories_are_made_before_VALID :
  take 4 (trace (snd (run iteration (session [Ok "PUT a.txt new/b.txt"; Ok "text"] []))))
  = [EvReceived "PUT a.txt new/b.txt"; EvExists "/srv/new" false;
     EvMakedirs "/srv/new" true; EvSent "VALID"]
  ∧ ordered nothing_before_VALID VALID_sent false
      (trace (snd (run iteration (session [Ok "PUT a.txt new/b.txt"; Ok "text"] []))))
    = false
  ∧ trace (snd (run (Client.execute abspath dirname "GET notes.txt new/c.txt")
                  (client "text" [])))
    = [EvExists "/srv/new" false; EvMakedirs "/srv/new" true;
       EvSent "GET notes.txt new/c.txt"]
  ∧ ordered nothing_before_VALID VALID_received false
      (trace (snd (run (Client.execute abspath dirname "GET notes.txt new/c.txt")
                     (client "text" []))))
    = false.
Proof. repeat split; vm_compute; reflexivity. Qed.

(** The client lists its own directory with no exchange at all. *)
Lemma LS_client_asks_nobody :
  trace (snd (run (Client.execute abspath dirname "LS client") (client "text" [])))
  = [EvListdir "."].
Proof. vm_compute. reflexivity. Qed.

(** *** Client and server *)



(** The scenario of the specification holds. *)
Lemma round_trip_hello : round_trip "hello" = Some "hello".
Proof. vm_compute. reflexivity. Qed.


(** A file that holds the single NUL character comes back empty: the
    client takes it for the mark of an empty file. *)
Lemma round_trip_of_NUL : round_trip Str.NUL = Some "".
Proof. vm_compute. reflexivity. Qed.

(** A carriage return does not survive the reading in text mode. *)
Lemma round_trip_of_carriage_return :
  round_trip (String "a" (String (ascii_of_nat 13) (String (ascii_of_nat 10) "b")))
  = Some (String "a" (String (ascii_of_nat 10) "b")).
Proof. vm_compute. reflexivity. Qed.

(** The same round trip with other paths on the two sides. *)
Definition round_trip_between (remote dst content : string) : option string :=
  let c := client content ["PUT ./local/a.txt " +:+ remote;
                           "GET " +:+ remote +:+ " " +:+ dst] in
  let s := session [] [] in
  let '((_, c'), _) :=
    exchange abspath dirname basename 2 (Client.main abspath dirname 2) c (handle_client 2 addr) s in
  match fs c' !! abspath dst with
  | Some (File _ _ text) => Some text
  | _ => None
  end.

(** A directory that is missing on either side is made with mode 1, and
    the file cannot be created in it: when the server has to make [new]
    its [open] fails after VALID and nothing comes back; when the client
    has to make [fresh] its own [open] fails.  With the directories in
    place the same paths do. *)
Lemma round_trip_into_a_new_directory_fails :
  round_trip_between "./new/b.txt" "./local/c.txt" "hello" = None
  ∧ round_trip_between "./remote/b.txt" "./fresh/c.txt" "hello" = None
  ∧ round_trip_between "./remote/b.txt" "./local/c.txt" "hello" = Some "hello".
Proof. repeat split; vm_compute; reflexivity. Qed.

(** A command line of more than 1024 characters is cut by the server's
    [recv(1024)]; what is left of it is taken for the contents of the
    file.  One of 900 characters goes through. *)
Lemma round_trip_with_a_long_command_line_fails :
  round_trip_between ("./remote/" +:+ Str.replicate 1100 "b") "./local/c.txt" "hello" = None
  ∧ round_trip_between ("./remote/" +:+ Str.replicate 900 "b") "./local/c.txt" "hello"
    = Some "hello".
Proof. split; vm_compute; reflexivity. Qed.

(** An empty file cannot be put at all.  The client's [send] of the empty
    string puts nothing on the wire, so the server, which has answered
    VALID and emptied the destination, keeps waiting for the payload; the
    next command line the client sends is taken for it and written into the
    file, and the client waits for an answer that never comes. *)
Lemma PUT_of_empty_file_stalls :
  let '((stc, c'), (sts, s')) :=
    exchange abspath dirname basename 2
      (Client.main abspath dirname 2)
      (client "" ["PUT ./local/a.txt ./remote/b.txt"; "GET ./remote/b.txt ./local/c.txt"])
      (handle_client 2 addr) (session [] []) in
  fs s' !! "/srv/remote/b.txt" = Some (File true true "GET ./remote/b.txt ./local/c.txt")
  ∧ fs c' !! "/srv/local/c.txt" = None
  ∧ (if stc is Blocked _ then true else false) = true
  ∧ (if sts is Blocked _ then true else false) = true.
Proof. vm_compute. repeat split. Qed.

(** In an empty working directory the listing is the empty string, whose
    [send] puts nothing on the wire: the client, told VALID, waits for a
    listing that does not come. *)
Lemma LS_server_of_empty_directory_stalls :
  let '((stc, c'), (sts, s')) :=
    exchange abspath dirname basename 1
      (Client.main abspath dirname 1) (client "text" ["LS server"])
      (handle_client 1 addr)
      (Host (<["/srv" := Dir 493]> ∅) [] [] [] false {[addr]} [] []) in
  trace s' = [EvReceived "LS server"; EvSent "VALID"; EvListdir "."; EvSent ""]
  ∧ trace c' = [EvInput "LS server"; EvSent "LS server"; EvReceived "VALID"]
  ∧ (if stc is Blocked _ then true else false) = true.
Proof. vm_compute. repeat split. Qed.

(** *** More of the server *)

Lemma unknown_header_witness :
  run iteration (session [Ok "DELETE notes.txt"] [])
  = (Done Continue,
     sent "INVALID" (received 1024 "DELETE notes.txt" (session [Ok "DELETE notes.txt"] []))).
Proof.
  apply (unknown_header_is_answered_INVALID abspath dirname basename
           (session [Ok "DELETE notes.txt"] []) "DELETE notes.txt" "DELETE" []);
    reflexivity.
Defined.

Lemma doubled_space_witness :
  (length (args_of "GET notes.txt  copy.txt") = 3%nat
   ↔ count_char " " (Str.take 1024 "GET notes.txt  copy.txt") = 2%nat)
  ∧ (count_char " " (Str.take 1024 "GET notes.txt  copy.txt") ≠ 2%nat →
     run iteration (session [Ok "GET notes.txt  copy.txt"] [])
     = (Done Continue,
        sent "INVALID"
          (received 1024 "GET notes.txt  copy.txt"
             (session [Ok "GET notes.txt  copy.txt"] [])))).
Proof.
  apply (GET_PUT_need_exactly_two_spaces abspath dirname basename
           (session [Ok "GET notes.txt  copy.txt"] []) "GET notes.txt  copy.txt" "GET" []);
    first [ reflexivity | left; reflexivity ].
Defined.

Lemma only_PUT_writes_witness :
  fs (snd (run iteration (session [Ok "GET notes.txt copy.txt"; Ok "later"] [])))
  = fs (session [Ok "GET notes.txt copy.txt"; Ok "later"] [])
  ∧ inbox (snd (run iteration (session [Ok "GET notes.txt copy.txt"; Ok "later"] [])))
    = inbox (received 1024 "GET notes.txt copy.txt"
               (session [Ok "GET notes.txt copy.txt"; Ok "later"] [])).
Proof.
  apply (only_PUT_writes_or_reads_a_payload abspath dirname basename
           (session [Ok "GET notes.txt copy.txt"; Ok "later"] [])
           "GET notes.txt copy.txt" "GET" [Ok "later"]);
    first [ reflexivity | discriminate ].
Defined.

Lemma GET_sends_the_first_chunk_witness :
  let chunk := Str.take 4096 (Str.universal_newlines "hello") in
  fst (run iteration (session [Ok "GET notes.txt copy.txt"] [])) = Done Continue
  ∧ outbox (snd (run iteration (session [Ok "GET notes.txt copy.txt"] [])))
    = outbox (session [Ok "GET notes.txt copy.txt"] [])
      ++ ["VALID"; if Str.is_empty chunk then Str.NUL else chunk]
  ∧ fs (snd (run iteration (session [Ok "GET notes.txt copy.txt"] [])))
    = fs (session [Ok "GET notes.txt copy.txt"] []).
Proof.
  apply (GET_sends_the_first_chunk abspath dirname basename
           (session [Ok "GET notes.txt copy.txt"] []) "GET notes.txt copy.txt"
           "GET" "notes.txt" "copy.txt" [] true "hello");
    first [ reflexivity | discriminate ].
Defined.

Lemma PUT_creates_a_new_file_witness :
  fst (run iteration (session [Ok "PUT a.txt remote/new.txt"; Ok "text"] [])) = Done Continue
  ∧ fs (snd (run iteration (session [Ok "PUT a.txt remote/new.txt"; Ok "text"] [])))
    = <[abspath "remote/new.txt" := File true true (Str.take 4096 "text")]>
        (fs (session [Ok "PUT a.txt remote/new.txt"; Ok "text"] [])).
Proof.
  apply (PUT_creates_a_new_file abspath dirname basename
           abspath_not_empty dirname_not_empty
           (session [Ok "PUT a.txt remote/new.txt"; Ok "text"] [])
           "PUT a.txt remote/new.txt" "PUT" "a.txt" "remote/new.txt" "text" [] 493%Z);
    first [ reflexivity | vm_compute; discriminate ].
Defined.

Lemma PUT_under_a_file_witness :
  fst (run iteration (session [Ok "PUT a.txt notes.txt/sub/b.txt"] [])) = Done Continue
  ∧ outbox (snd (run iteration (session [Ok "PUT a.txt notes.txt/sub/b.txt"] [])))
    = outbox (session [Ok "PUT a.txt notes.txt/sub/b.txt"] []) ++ ["INVALID"]
  ∧ fs (snd (run iteration (session [Ok "PUT a.txt notes.txt/sub/b.txt"] [])))
    = fs (session [Ok "PUT a.txt notes.txt/sub/b.txt"] []).
Proof.
  apply (PUT_is_refused_when_the_directory_cannot_be_made abspath dirname basename
           (session [Ok "PUT a.txt notes.txt/sub/b.txt"] [])
           "PUT a.txt notes.txt/sub/b.txt" "PUT" "a.txt" "notes.txt/sub/b.txt" []
           true true "hello"); reflexivity.
Defined.

Lemma PUT_makes_the_directory_witness :
  fs (snd (run iteration (session [Ok "PUT a.txt new/b.txt"; Ok "text"] [])))
    !! abspath (dirname (abspath "new/b.txt")) = Some (Dir 1)
  ∧ take 4 (trace (snd (run iteration (session [Ok "PUT a.txt new/b.txt"; Ok "text"] []))))
    = [EvReceived (Str.take 1024 "PUT a.txt new/b.txt");
       EvExists (dirname (abspath "new/b.txt")) false;
       EvMakedirs (dirname (abspath "new/b.txt")) true; EvSent "VALID"].
Proof.
  apply (PUT_makes_the_missing_directory_with_mode_1 abspath dirname basename
           dirname_not_empty
           (session [Ok "PUT a.txt new/b.txt"; Ok "text"] [])
           "PUT a.txt new/b.txt" "PUT" "a.txt" "new/b.txt" [Ok "text"] 493%Z);
    reflexivity.
Defined.

Lemma failed_send_of_VALID_witness :
  let tried := send_failed "VALID" ConnectionError
                 (log (EvExists "notes.txt" true)
                    (received 1024 "GET notes.txt copy.txt"
                       (session [Ok "GET notes.txt copy.txt"]
                          [Some ConnectionError; Some ConnectionError]))) in
  run iteration (session [Ok "GET notes.txt copy.txt"]
                   [Some ConnectionError; Some ConnectionError])
  = (Uncaught ConnectionError, send_failed "INVALID" ConnectionError tried).
Proof.
  apply (failed_send_of_VALID_is_taken_for_an_invalid_command abspath dirname basename
           (session [Ok "GET notes.txt copy.txt"] [Some ConnectionError; Some ConnectionError])
           "GET notes.txt copy.txt" "GET" "notes.txt" "copy.txt" []
           (File true true "hello") (Some ConnectionError) []);
    first [ reflexivity | discriminate ].
Defined.

Lemma failed_send_of_the_file_witness :
  fst (run (handle_client 3 addr)
         (session [Ok "GET notes.txt copy.txt"] [None; Some ConnectionError])) = Done true
  ∧ conn_closed (snd (run (handle_client 3 addr)
                        (session [Ok "GET notes.txt copy.txt"] [None; Some ConnectionError])))
    = true
  ∧ clients (snd (run (handle_client 3 addr)
                    (session [Ok "GET notes.txt copy.txt"] [None; Some ConnectionError])))
    = clients (session [Ok "GET notes.txt copy.txt"] [None; Some ConnectionError]) ∖ {[addr]}
  ∧ fs (snd (run (handle_client 3 addr)
               (session [Ok "GET notes.txt copy.txt"] [None; Some ConnectionError])))
    = fs (session [Ok "GET notes.txt copy.txt"] [None; Some ConnectionError]).
Proof.
  apply (failed_send_of_the_file_ends_the_session abspath dirname basename
           (session [Ok "GET notes.txt copy.txt"] [None; Some ConnectionError])
           "GET notes.txt copy.txt" "GET" "notes.txt" "copy.txt" [] true "hello" [] 2 addr);
    first [ reflexivity | discriminate | apply elem_of_singleton; reflexivity ].
Defined.


Lemma GET_is_answered_VALID_witness :
  EvSent "VALID" ∈ trace (snd (run iteration (session [Ok "GET notes.txt copy.txt"] [])))
  ↔ length (args_of "GET notes.txt copy.txt") = 3%nat
    ∧ ∃ p, args_of "GET notes.txt copy.txt" !! 1%nat = Some p
           ∧ fs_exists abspath (fs (session [Ok "GET notes.txt copy.txt"] [])) p = true.
Proof.
  apply (GET_is_answered_VALID_iff_source_exists abspath dirname basename
           (session [Ok "GET notes.txt copy.txt"] []) "GET notes.txt copy.txt" "GET" []);
    reflexivity.
Defined.

(** The empty path does not exist: with an empty first argument the
    line has two spaces and passes the test of its length, and GET is
    answered INVALID for want of the source, while PUT is accepted. *)
Lemma empty_first_argument :
  outbox (snd (run iteration (session [Ok "GET  copy.txt"] []))) = ["INVALID"]
  ∧ outbox (snd (run iteration (session [Ok "PUT  b.txt"; Ok "text"] []))) = ["VALID"]
  ∧ fs (snd (run iteration (session [Ok "PUT  b.txt"; Ok "text"] []))) !! "/srv/b.txt"
    = Some (File true true "text").
Proof. repeat split; vm_compute; reflexivity. Qed.

Lemma end_of_stream_keeps_turning_witness :
  ∃ w', run (handle_client 3 addr) (session [Ok ""; Ok ""; Ok ""] []) = (Done false, w')
        ∧ clients w' = clients (session [Ok ""; Ok ""; Ok ""] [])
        ∧ conn_closed w' = conn_closed (session [Ok ""; Ok ""; Ok ""] []).
Proof.
  apply (end_of_stream_keeps_the_loop_turning abspath dirname basename 3 addr
           (session [Ok ""; Ok ""; Ok ""] [])); reflexivity.
Defined.

Lemma server_sends_data_only_after_VALID_witness :
  ordered replies_first VALID_sent false
    (trace (snd (run iteration (session [Ok "GET notes.txt copy.txt"] [])))) = true.
Proof.
  apply (server_sends_data_only_after_VALID abspath dirname basename
           (session [Ok "GET notes.txt copy.txt"] [])); reflexivity.
Defined.

(** A session that met a read error has returned; looked up afterwards,
    its thread is not found, and the second connection is not served. *)
Lemma join_after_the_handler_has_returned_witness :
  main abspath dirname basename 2
    [(Connection addr [Err ConnectionError] [], AfterThreadEnds);
     (Connection ("192.0.2.8", 4001%nat) [Ok "LS server"] [], BeforeThreadEnds)]
    (session [] [])
  = (Uncaught KeyError,
     snd (run (handle_client 2 addr)
            (registered (Connection addr [Err ConnectionError] []) (session [] []))))
  ∧ main abspath dirname basename 2
      [(Connection addr [Err ConnectionError] [], BeforeThreadEnds);
       (Connection ("192.0.2.8", 4001%nat) [Ok "LS server"] [], BeforeThreadEnds)]
      (session [] [])
    = main abspath dirname basename 2
        [(Connection ("192.0.2.8", 4001%nat) [Ok "LS server"] [], BeforeThreadEnds)]
        (snd (run (handle_client 2 addr)
                (registered (Connection addr [Err ConnectionError] []) (session [] [])))).
Proof.
  apply (join_after_the_handler_has_returned_raises_KeyError abspath dirname basename
           2 (session [] []) (Connection addr [Err ConnectionError] [])
           [(Connection ("192.0.2.8", 4001%nat) [Ok "LS server"] [], BeforeThreadEnds)]);
    reflexivity.
Defined.

(** *** More of the client *)

Lemma unknown_command_witness :
  run (Client.iteration abspath dirname) (client "text" ["delete a.txt"])
  = (Done Continue, typed "delete a.txt" [] (client "text" ["delete a.txt"])).
Proof.
  apply (unknown_command_is_refused_locally abspath dirname basename
           (client "text" ["delete a.txt"]) "delete a.txt" "delete" []);
    first [ reflexivity | discriminate ].
Defined.

Lemma LS_alone_is_refused_locally_witness :
  run (Client.iteration abspath dirname) (client "text" ["LS"])
  = (Done Continue, typed "LS" [] (client "text" ["LS"])).
Proof.
  apply (wrong_arity_is_refused_locally abspath dirname basename
           (client "text" ["LS"]) "LS" "LS" []);
    first [ reflexivity | right; split; [reflexivity | vm_compute; discriminate] ].
Defined.

Lemma PUT_of_a_missing_file_witness :
  run (Client.iteration abspath dirname) (client "text" ["PUT local/none.txt remote/b.txt"])
  = (Done Continue,
     log (EvExists (abspath "local/none.txt") false)
       (typed "PUT local/none.txt remote/b.txt" []
          (client "text" ["PUT local/none.txt remote/b.txt"]))).
Proof.
  apply (PUT_of_a_missing_file_asks_nobody abspath dirname basename
           (client "text" ["PUT local/none.txt remote/b.txt"])
           "PUT local/none.txt remote/b.txt" "PUT" "local/none.txt" "remote/b.txt" []);
    reflexivity.
Defined.

Lemma LS_client_witness :
  run (Client.iteration abspath dirname) (client "text" ["ls client"])
  = (Done Continue, log (EvListdir curdir) (typed "ls client" [] (client "text" ["ls client"]))).
Proof.
  apply (LS_client_is_answered_locally abspath dirname basename
           (client "text" ["ls client"]) "ls client" "ls" []); reflexivity.
Defined.

Lemma unexpected_reply_witness :
  run (Client.main abspath dirname 1)
      (set_inbox [Ok "VALIDnotes.txt"] (client "text" ["LS server"]))
  = (Uncaught KeyError,
     received 1024 "VALIDnotes.txt"
       (sent "LS server"
          (typed "LS server" [] (set_inbox [Ok "VALIDnotes.txt"] (client "text" ["LS server"]))))).
Proof.
  apply (unexpected_reply_raises_KeyError abspath dirname basename
           (set_inbox [Ok "VALIDnotes.txt"] (client "text" ["LS server"]))
           "LS server" "LS" "VALIDnotes.txt" [] [] 0);
    first [ reflexivity | vm_compute; discriminate ].
Defined.

Lemma refused_GET_touches_no_file_witness :
  fst (run (Client.iteration abspath dirname)
         (set_inbox [Ok "INVALID"] (client "text" ["GET none.txt local/a.txt"])))
  = Done Continue
  ∧ fs (snd (run (Client.iteration abspath dirname)
               (set_inbox [Ok "INVALID"] (client "text" ["GET none.txt local/a.txt"]))))
    = fs (set_inbox [Ok "INVALID"] (client "text" ["GET none.txt local/a.txt"]))
  ∧ outbox (snd (run (Client.iteration abspath dirname)
                   (set_inbox [Ok "INVALID"] (client "text" ["GET none.txt local/a.txt"]))))
    = outbox (set_inbox [Ok "INVALID"] (client "text" ["GET none.txt local/a.txt"]))
      ++ ["GET none.txt local/a.txt"].
Proof.
  apply (refused_GET_touches_no_file abspath dirname basename dirname_not_empty
           (set_inbox [Ok "INVALID"] (client "text" ["GET none.txt local/a.txt"]))
           "GET none.txt local/a.txt" "GET" "none.txt" "local/a.txt" [] [] (Dir 493));
    reflexivity.
Defined.

Lemma refused_GET_leaves_the_directory_witness :
  fst (run (Client.iteration abspath dirname)
         (set_inbox [Ok "INVALID"] (client "text" ["GET none.txt new/c.txt"])))
  = Done Continue
  ∧ fs (snd (run (Client.iteration abspath dirname)
               (set_inbox [Ok "INVALID"] (client "text" ["GET none.txt new/c.txt"]))))
    = <[abspath (dirname (abspath "new/c.txt")) := Dir 1]>
        (fs (set_inbox [Ok "INVALID"] (client "text" ["GET none.txt new/c.txt"]))).
Proof.
  apply (refused_GET_leaves_the_new_directory abspath dirname basename dirname_not_empty
           (set_inbox [Ok "INVALID"] (client "text" ["GET none.txt new/c.txt"]))
           "GET none.txt new/c.txt" "GET" "none.txt" "new/c.txt" [] [] 493%Z);
    reflexivity.
Defined.


Lemma PUT_sends_the_first_chunk_witness :
  let chunk := Str.take 4096 (Str.universal_newlines "hello") in
  fst (run (Client.iteration abspath dirname)
         (set_inbox [Ok "VALID"] (client "hello" ["PUT local/a.txt remote/b.txt"])))
  = Done Continue
  ∧ outbox (snd (run (Client.iteration abspath dirname)
                   (set_inbox [Ok "VALID"] (client "hello" ["PUT local/a.txt remote/b.txt"]))))
    = outbox (set_inbox [Ok "VALID"] (client "hello" ["PUT local/a.txt remote/b.txt"]))
      ++ "PUT local/a.txt remote/b.txt" :: (if Str.is_empty chunk then [] else [chunk])
  ∧ fs (snd (run (Client.iteration abspath dirname)
               (set_inbox [Ok "VALID"] (client "hello" ["PUT local/a.txt remote/b.txt"]))))
    = fs (set_inbox [Ok "VALID"] (client "hello" ["PUT local/a.txt remote/b.txt"])).
Proof.
  apply (PUT_sends_the_first_chunk abspath dirname basename abspath_not_empty
           (set_inbox [Ok "VALID"] (client "hello" ["PUT local/a.txt remote/b.txt"]))
           "PUT local/a.txt remote/b.txt" "PUT" "local/a.txt" "remote/b.txt" [] [] true "hello");
    reflexivity.
Defined.

Lemma failed_send_leaves_the_loop_witness :
  run (Client.main abspath dirname 2)
      (set_faults [Some ConnectionError] (client "text" ["LS server"; "quit"]))
  = (Done true,
     send_failed "LS server" ConnectionError
       (typed "LS server" ["quit"]
          (set_faults [Some ConnectionError] (client "text" ["LS server"; "quit"])))).
Proof.
  apply (failed_send_leaves_the_loop_without_closing abspath dirname basename
           (set_faults [Some ConnectionError] (client "text" ["LS server"; "quit"]))
           "LS server" "LS" ["quit"] [] 1); reflexivity.
Defined.

Lemma socket_is_closed_by_quit_witness :
  conn_closed (snd (run (Client.iteration abspath dirname) (client "text" ["quit"]))) = true
  ↔ "quit" = "quit".
Proof.
  apply (socket_is_closed_by_quit_alone abspath dirname basename
           (client "text" ["quit"]) "quit" []); reflexivity.
Defined.

Lemma client_sends_data_only_after_VALID_witness :
  ordered (asks_first "PUT local/a.txt remote/b.txt") VALID_received false
    (trace (snd (run (Client.execute abspath dirname "PUT local/a.txt remote/b.txt")
                   (set_inbox [Ok "VALID"] (client "hello" []))))) = true.
Proof.
  apply (client_sends_data_only_after_VALID abspath dirname basename
           (set_inbox [Ok "VALID"] (client "hello" [])) "PUT local/a.txt remote/b.txt");
    reflexivity.
Defined.

(** *** More of the two together *)


Lemma LS_server_of_an_empty_directory_witness :
  ∃ kc ks c' s',
    exchange abspath dirname basename 4
      (Client.main abspath dirname 2) (client "text" ["LS server"; "quit"])
      (handle_client 2 addr) (Host (<["/srv" := Dir 493]> ∅) [] [] [] false {[addr]} [] [])
    = ((Blocked (Vis (Recv 4096) kc), c'), (Blocked (Vis (Recv 1024) ks), s'))
    ∧ stdin c' = ["quit"]
    ∧ outbox s' = [].
Proof.
  apply (LS_server_of_an_empty_directory_never_ends abspath dirname basename 3
           (client "text" ["LS server"; "quit"])
           (Host (<["/srv" := Dir 493]> ∅) [] [] [] false {[addr]} [] [])
           "LS server" "LS" ["quit"] 1 0 addr);
    first [ reflexivity | vm_compute; discriminate | vm_compute; reflexivity ].
Defined.


End Scenario.
